(** * xto6: the transformation pipeline of [src/transformer.js] and the
    tree provider of [utils/ast-generator.js]

    The program is JavaScript.  Its objects are untyped dictionaries, its
    configuration is merged in place with lodash's [merge], and two of its
    entry points hand work to Node's event loop.  The embedding keeps all
    three: values are a small JSON-like type, objects with identity live in
    a heap, and every method runs in a state-and-exception monad over a
    world that also holds the file system, the queue of pending
    asynchronous operations and the log of calls made to the caller's
    callbacks. *)

From stdpp Require Import gmap strings list fin_maps.
From Stdlib Require Import ZArith.
From Equations Require Import Equations.

#[local] Set Warnings "-register-all".

(** ** Values *)

(** Exceptions.  [SyntaxError] comes from the parsers, [IOError] from
    Node's [fs], [TypeError] from the language itself (reading a property
    of [undefined] or [null], calling a non-function).  [StateError] is the
    kind the specification names for out-of-order use. *)
Inductive error :=
  | SyntaxError (msg : string)
  | IOError (path : string)
  | TypeError
  | StateError.

(** JavaScript values.  Numbers are integers here (the program only uses
    [ecmaVersion: 6]); a function value is the name of a caller-supplied
    callback; an [Error] object carries its kind.  Syntax trees, option
    objects, comments and tokens are all plain objects and arrays. *)
Inductive val :=
  | VUndefined
  | VNull
  | VBool (b : bool)
  | VNum (n : Z)
  | VStr (s : string)
  | VFun (f : string)
  | VError (e : error)
  | VArr (a : list val)
  | VObj (o : gmap string val).

#[global] Instance val_inhabited : Inhabited val := populate VUndefined.

(** Truthiness, as tested by [if (x)] and [x && y]. *)
Definition truthy (v : val) : bool :=
  match v with
  | VUndefined | VNull | VBool false | VNum Z0 | VStr EmptyString => false
  | _ => true
  end.

(** [typeof v === 'undefined'] *)
Definition is_undefined (v : val) : bool :=
  match v with VUndefined => true | _ => false end.

(** [typeof v === 'function'] *)
Definition is_function (v : val) : bool :=
  match v with VFun _ => true | _ => false end.

(** [v !== false] *)
Definition strict_neq_false (v : val) : bool :=
  match v with VBool false => false | _ => true end.

(** An absent key reads as [undefined]. *)
Definition field (o : gmap string val) (k : string) : val :=
  default VUndefined (o !! k).

(** ** lodash's [merge]

    [merge(object, source)] (lodash 3, [lodash/object/merge.js]) copies the
    own properties of [source] into [object], IN PLACE, and returns
    [object].  A source property that is [undefined] is skipped; a plain
    object or an array is merged recursively into the destination's
    property of the same kind (or into a fresh [{}] / [[]] when the
    destination has none); every other value (primitives, [null],
    functions, non-plain objects) is assigned.  [mergeVal d s] is the new
    value of one property, from its old value [d] (if any) and the source
    value [s]. *)
Fixpoint mergeVal (d : option val) (s : val) {struct s} : val :=
  match s with
  | VObj ms =>
      let md := match d with Some (VObj md) => md | _ => ∅ end in
      VObj (map_imap (λ k s',
                match s' with
                | VUndefined => md !! k
                | _ => Some (mergeVal (md !! k) s')
                end) ms ∪ md)
  | VArr ls =>
      let ld := match d with Some (VArr ld) => ld | _ => [] end in
      VArr ((fix go (ld ls : list val) {struct ls} : list val :=
               match ls with
               | [] => ld
               | s' :: ls' => mergeVal (head ld) s' :: go (tail ld) ls'
               end) ld ls)
  | VUndefined => default VUndefined d
  | _ => s
  end.

(** The merge of two objects, as maps of own properties. *)
Definition mergeObj (md ms : gmap string val) : gmap string val :=
  map_imap (λ k s',
      match s' with
      | VUndefined => md !! k
      | _ => Some (mergeVal (md !! k) s')
      end) ms ∪ md.

(** ** The world *)

Definition loc := nat.

(** A pending asynchronous operation of Node's [fs].  [fs.readFile] is only
    ever called with the closure of [astGenerator.readFile], which captures
    that function's [options] object. *)
Inductive task :=
  | FsWriteFile (filename : string) (data : string) (callback : val)
  | FsReadFile (file : string) (options : loc).

(** What the event loop did to the outside: a call of a callback of the
    caller, or an exception nobody caught. *)
Inductive event :=
  | Called (f : string) (args : list val)
  | Uncaught (e : error).

Record World := mkWorld {
  heap : gmap loc (gmap string val);  (* option objects, by identity *)
  files : gmap string string;         (* the file system: path to text *)
  readonly : gset string;             (* paths that cannot be written *)
  queue : list task;                  (* pending asynchronous operations *)
  log : list event                    (* calls out of the event loop *)
}.

Definition with_heap (h : gmap loc (gmap string val)) (w : World) : World :=
  mkWorld h (files w) (readonly w) (queue w) (log w).
Definition with_files (f : gmap string string) (w : World) : World :=
  mkWorld (heap w) f (readonly w) (queue w) (log w).
Definition with_queue (q : list task) (w : World) : World :=
  mkWorld (heap w) (files w) (readonly w) q (log w).
Definition with_log (l : list event) (w : World) : World :=
  mkWorld (heap w) (files w) (readonly w) (queue w) l.

(** The own properties of the object at [l]. *)
Definition deref (w : World) (l : loc) : gmap string val :=
  heap w !!! l.

(** ** The monad of methods: state and exceptions *)

Inductive outcome (A : Type) :=
  | Return (a : A)
  | Throw (e : error).
Arguments Return {A} a.
Arguments Throw {A} e.

Definition M (A : Type) : Type := World → World * outcome A.

#[global] Instance M_ret : MRet M := λ A a w, (w, Return a).
#[global] Instance M_bind : MBind M := λ A B f m w,
  match m w with
  | (w', Return a) => f a w'
  | (w', Throw e) => (w', Throw e)
  end.

Definition throw {A} (e : error) : M A := λ w, (w, Throw e).
Definition lift {A} (r : outcome A) : M A := λ w, (w, r).

(** [new] of an object literal. *)
Definition alloc (o : gmap string val) : M loc := λ w,
  let l := fresh (dom (heap w)) in
  (with_heap (<[l := o]> (heap w)) w, Return l).

(** [o.k] for an object [o] held by reference. *)
Definition getField (l : loc) (k : string) : M val := λ w,
  (w, Return (field (deref w l) k)).

(** [o.k = v] *)
Definition setField (l : loc) (k : string) (v : val) : M unit := λ w,
  (with_heap (<[l := <[k := v]> (deref w l)]> (heap w)) w, Return tt).

(** [v[k]] for a value [v]: an exception on [undefined] and [null], the own
    property on an object.  The names this program reads (the six pass
    keys) are properties of no primitive, function, array or [Error]. *)
Definition getProp (v : val) (k : string) : M val :=
  match v with
  | VUndefined | VNull => throw TypeError
  | VObj o => mret (field o k)
  | _ => mret VUndefined
  end.

(** [merge(object, source)]: the destination is updated in place and it is
    the destination that is returned. *)
Definition merge (object : loc) (source : gmap string val) : M loc := λ w,
  (with_heap (<[object := mergeObj (deref w object) source]> (heap w)) w,
   Return object).

(** ** Node's [fs] and the event loop *)

(** [fs.readFileSync(file, 'utf8')] *)
Definition fs_readFileSync (file : string) : M string := λ w,
  match files w !! file with
  | Some data => (w, Return data)
  | None => (w, Throw (IOError file))
  end.

(** [fs.writeFileSync(filename, data)] *)
Definition fs_writeFileSync (filename data : string) : M unit := λ w,
  if decide (filename ∈ readonly w) then (w, Throw (IOError filename))
  else (with_files (<[filename := data]> (files w)) w, Return tt).

(** [fs.writeFile(filename, data, callback)] and [fs.readFile(file, cb)]
    only schedule the operation and return. *)
Definition fs_writeFile (filename data : string) (callback : val) : M unit :=
  λ w, (with_queue (queue w ++ [FsWriteFile filename data callback]) w,
        Return tt).

Definition fs_readFile (file : string) (options : loc) : M unit :=
  λ w, (with_queue (queue w ++ [FsReadFile file options]) w, Return tt).

(** A call [f(args)] of a value of the caller.  The callbacks themselves
    are outside the program: a call is recorded, not interpreted. *)
Definition call (f : val) (args : list val) : M unit :=
  match f with
  | VFun name => λ w, (with_log (log w ++ [Called name args]) w, Return tt)
  | _ => throw TypeError
  end.

(** ** The collaborators

    The parsers, the code generator, the formatter and the six lowering
    passes are libraries and modules outside the two files modelled here;
    they are parameters.  The parsers may throw (a text that does not
    parse).  The generator, the formatter and the passes are taken to
    return: their contracts have no failure mode, a pass that cannot
    rewrite a node leaves it alone.  A pass receives the tree and rewrites
    it in place: it is a function on the tree's content, and it sees
    nothing else of the transformer. *)

Inductive transformation :=
  | classTransformation
  | templateStringTransformation
  | arrowFunctionTransformation
  | letTransformation
  | defaultArgsTransformation
  | objectMethodsTransformation.

#[global] Instance transformation_eq_dec : EqDecision transformation.
Proof. solve_decision. Defined.

Class Collaborators := {
  (* acorn.parse(js, options): the tree, and what it pushed to the arrays
     given as options.onComment and options.onToken *)
  acorn_parse : val → gmap string val → outcome (val * list val * list val);
  (* coffee.compile(js) *)
  coffee_compile : val → outcome val;
  (* escodegen.attachComments(ast, comments, tokens), in place on ast *)
  escodegen_attachComments : val → list val → list val → val;
  (* codeGenerator.generate(ast, {comment: true, format: ..., sourceCode}) *)
  codeGenerator_generate : val → val → string;
  (* formatter.format(result, options) *)
  formatter_format : string → val → string;
  (* transformation(ast) *)
  run : transformation → val → val
}.

(** ** [utils/ast-generator.js] *)

Module astGenerator.
Section astGenerator.
Context `{!Collaborators}.

(** The object [{ast, js}]. *)
Definition result (ast js : val) : val :=
  VObj (<["ast" := ast]> (<["js" := js]> ∅)).

(** [read(js, options)].  The arrays [comments] and [tokens] are created,
    stored in [options] and then filled by the parser: after parsing,
    [options.onComment] and [options.onToken] hold the filled arrays. *)
Definition read (js : val) (options : loc) : M (val * val) :=
  setField options "ranges" (VBool true);;
  setField options "onComment" (VArr []);;
  setField options "onToken" (VArr []);;
  setField options "plugins" (VObj (<["jsx" := VBool true]> ∅));;
  coffee ← getField options "coffee";
  js ← (if truthy coffee then lift (coffee_compile js) else mret js);
  '(ast, comments, tokens) ← (λ w, lift (acorn_parse js (deref w options)) w);
  setField options "onComment" (VArr comments);;
  setField options "onToken" (VArr tokens);;
  mret (escodegen_attachComments ast comments tokens, js).

(** [/\.coffee$/.test(file)] *)
Definition is_coffee (file : string) : bool :=
  String.prefix (String.rev ".coffee") (String.rev file).

(** [readFile(file, options)]: [Some (ast, js)] for [{ast, js}], [None]
    for the [undefined] that the asynchronous branch returns. *)
Definition readFile (file : string) (options : loc)
    : M (option (val * val)) :=
  coffee ← getField options "coffee";
  (if is_undefined coffee
   then setField options "coffee" (VBool (is_coffee file))
   else mret tt);;
  sync ← getField options "sync";
  if truthy sync then
    js ← fs_readFileSync file;
    r ← read (VStr js) options;
    mret (Some r)
  else
    fs_readFile file options;;
    mret None.

(** The closure [(js) => { if (options.callback) {
    options.callback(this.read(js, options)); } }] that [readFile] hands
    to [fs.readFile]. *)
Definition readFile_closure (options : loc) (js : val) : M unit :=
  callback ← getField options "callback";
  if truthy callback then
    '(ast, js') ← read js options;
    call callback [result ast js']
  else mret tt.

End astGenerator.
End astGenerator.

(** ** The event loop

    Node completes a scheduled operation by calling its callback once:
    [callback(err)] or [callback(null)] for a write, [callback(err)] or
    [callback(null, data)] for a read.  An exception that escapes the
    callback is uncaught. *)
Section event_loop.
Context `{!Collaborators}.

Definition settle (r : World * outcome unit) : World :=
  match r with
  | (w, Return _) => w
  | (w, Throw e) => with_log (log w ++ [Uncaught e]) w
  end.

(** The arguments Node gives to the callback of [fs.readFile]. *)
Definition readFile_arguments (file : string) (w : World) : list val :=
  match files w !! file with
  | Some data => [VNull; VStr data]
  | None => [VError (IOError file)]
  end.

(** What the single parameter of a function is bound to when the function
    is called with [args]. *)
Definition first_parameter (args : list val) : val :=
  default VUndefined (head args).

Definition runTask (t : task) (w : World) : World :=
  match t with
  | FsWriteFile filename data callback =>
      match fs_writeFileSync filename data w with
      | (w', Return _) => settle (call callback [VNull] w')
      | (w', Throw e) => settle (call callback [VError e] w')
      end
  | FsReadFile file options =>
      settle (astGenerator.readFile_closure options
                (first_parameter (readFile_arguments file w)) w)
  end.

(** One turn: the oldest pending operation completes. *)
Definition turn (w : World) : World :=
  match queue w with
  | [] => w
  | t :: q => runTask t (with_queue q w)
  end.

End event_loop.

(** ** [transformer.js] *)

(** An instance of the class. [options] is a reference: the object it
    names lives in the heap. *)
Record Transformer := mkTransformer {
  sourceCode : val;
  ast : val;
  options : loc;
  transformations : list transformation
}.

Definition with_ast (a : val) (this : Transformer) : Transformer :=
  mkTransformer (sourceCode this) a (options this) (transformations this).
Definition with_sourceCode (s : val) (this : Transformer) : Transformer :=
  mkTransformer s (ast this) (options this) (transformations this).
Definition push (t : transformation) (this : Transformer) : Transformer :=
  mkTransformer (sourceCode this) (ast this) (options this)
    (transformations this ++ [t]).

(** The static property [Transformer.defaultOptions] names one object,
    created when the module is loaded from the literal below. *)
Definition Transformer_defaultOptions : loc := 0.

Definition defaultOptions : gmap string val :=
  <["transformers" := VObj (
      <["classes" := VBool true]> (
      <["stringTemplates" := VBool true]> (
      <["arrowFunctions" := VBool true]> (
      <["let" := VBool true]> (
      <["defaultArguments" := VBool true]> (
      <["objectMethods" := VBool true]> ∅))))))]> (
  <["formatter" := VBool false]> ∅).

(** The world once the module is loaded: nothing pending, nothing logged. *)
Definition loaded (fs : gmap string string) (ro : gset string) : World :=
  mkWorld (<[Transformer_defaultOptions := defaultOptions]> ∅) fs ro [] [].

Section Transformer.
Context `{!Collaborators}.

(** [typeof this.options.transformers[key] !== 'undefined' &&
    this.options.transformers[key]] *)
Definition shouldTransform (this : Transformer) (key : string) : M val :=
  transformers ← getField (options this) "transformers";
  flag ← getProp transformers key;
  if negb (is_undefined flag) then
    transformers ← getField (options this) "transformers";
    getProp transformers key
  else mret (VBool false).

Definition doTransform (key : string) (transformation : transformation)
    (this : Transformer) : M Transformer :=
  should ← shouldTransform this key;
  if truthy should then mret (push transformation this) else mret this.

Definition prepareTransformations (this : Transformer) : M Transformer :=
  this ← doTransform "classes" classTransformation this;
  this ← doTransform "stringTemplates" templateStringTransformation this;
  this ← doTransform "arrowFunctions" arrowFunctionTransformation this;
  this ← doTransform "let" letTransformation this;
  this ← doTransform "defaultArguments" defaultArgsTransformation this;
  doTransform "objectMethods" objectMethodsTransformation this.

(** [constructor(options = {})]: the argument is the caller's
    configuration object, [{}] when omitted. *)
Definition constructor (opts : gmap string val) : M Transformer :=
  merged ← merge Transformer_defaultOptions opts;
  prepareTransformations (mkTransformer (VStr "") (VObj ∅) merged []).

(** [readFile(filename)] *)
Definition readFile (this : Transformer) (filename : string)
    : M Transformer :=
  o ← alloc (<["sync" := VBool true]> (<["ecmaVersion" := VNum 6]> ∅));
  r ← astGenerator.readFile filename o;
  match r with
  | Some (ast, js) => mret (with_sourceCode js (with_ast ast this))
  | None => throw TypeError   (* destructuring [undefined] *)
  end.

(** [read(string)] *)
Definition read (this : Transformer) (string : val) : M Transformer :=
  '(ast, js) ← astGenerator.read string (options this);
  mret (with_sourceCode js (with_ast ast this)).

(** [applyTransformation(transformation)], for any function given as
    the pass: it is called on [this.ast], which it rewrites in place,
    and what it returns is dropped. *)
Definition applyTransformation (this : Transformer)
    (transformation : val → val) : M Transformer :=
  mret (with_ast (transformation (ast this)) this).

(** [out()] *)
Definition out (this : Transformer) : M string :=
  let result := codeGenerator_generate (ast this) (sourceCode this) in
  formatter ← getField (options this) "formatter";
  if strict_neq_false formatter then
    formatter ← getField (options this) "formatter";
    mret (formatter_format result formatter)
  else mret result.

(** [writeFile(filename, callback)] *)
Definition writeFile (this : Transformer) (filename : string)
    (callback : val) : M unit :=
  code ← out this;
  if is_function callback then fs_writeFile filename code callback
  else fs_writeFileSync filename code.

End Transformer.

(** A value together with the equation that names it, so that a clause
    can use what a test has established. *)
Definition inspect {A : Type} (x : A) : {y : A | x = y} := exist _ x eq_refl.

Section applyTransformations.
Context `{!Collaborators}.

(** The loop [for (let i = 0; i < this.transformations.length; i++)] of
    [applyTransformations], from index [i] on.  The bound is read again
    at every iteration, from the instance as the body left it; the loop
    ends because the body leaves the list alone. *)
Equations? applyTransformations_from (this : Transformer) (i : nat)
    (w : World) : World * outcome Transformer
    by wf (length (transformations this) - i) lt :=
  applyTransformations_from this i w
    with inspect (transformations this !! i) := {
    | exist _ (Some transformation) Hi
        with inspect (applyTransformation this (run transformation) w) := {
        | exist _ (w', Return this') Hbody =>
            applyTransformations_from this' (S i) w'
        | exist _ (w', Throw e) _ => (w', Throw e) }
    | exist _ None _ => (w, Return this) }.
Proof.
  apply lookup_lt_Some in Hi. lia.
Qed.

(** [applyTransformations()] *)
Definition applyTransformations (this : Transformer) : M Transformer :=
  applyTransformations_from this 0.

End applyTransformations.

(** ** Toy collaborators, to run the model on concrete inputs *)

(** A parser that accepts everything but the text ["!"] and returns a
    one-node tree holding the text of what it was given (as [String(x)]
    would print it); a generator that prints the text held by such a tree;
    a formatter that ends the text with a newline; passes that record
    their name in the tree. *)
Definition pass_name (t : transformation) : string :=
  match t with
  | classTransformation => "classes"
  | templateStringTransformation => "template-string"
  | arrowFunctionTransformation => "arrow-functions"
  | letTransformation => "let"
  | defaultArgsTransformation => "default-arguments"
  | objectMethodsTransformation => "object-methods"
  end.

Definition toy_text (v : val) : string :=
  match v with
  | VStr s => s
  | VNull => "null"
  | VUndefined => "undefined"
  | VError _ => "Error"
  | _ => ""
  end.

Definition toy : Collaborators := {|
  acorn_parse js _ :=
    match js with
    | VStr "!" => Throw (SyntaxError "Unexpected token")
    | _ => Return (VObj (<["body" := VStr (toy_text js)]> ∅), [], [])
    end;
  coffee_compile js := Return js;
  escodegen_attachComments ast _ _ := ast;
  codeGenerator_generate ast _ :=
    match ast with
    | VObj o => toy_text (field o "body")
    | _ => ""
    end;
  formatter_format result _ := (result ++ "\n")%string;
  run t ast :=
    match ast with
    | VObj o =>
        match field o "passes" with
        | VArr l => VObj (<["passes" := VArr (l ++ [VStr (pass_name t)])]> o)
        | _ => VObj (<["passes" := VArr [VStr (pass_name t)]]> o)
        end
    | _ => ast
    end
|}.

(** A freshly loaded module, with one readable file and one path that
    cannot be written. *)
Definition w0 : World :=
  loaded (<["a.js" := "var x;"%string]> ∅) {["/ro.js"%string]}.

(** ** Notions used by the statements *)

(** The declared priority order of the passes. *)
Definition priority : list transformation :=
  [classTransformation; templateStringTransformation;
   arrowFunctionTransformation; letTransformation;
   defaultArgsTransformation; objectMethodsTransformation].

(** The key under which [prepareTransformations] looks each pass up. *)
Definition key (t : transformation) : string :=
  match t with
  | classTransformation => "classes"
  | templateStringTransformation => "stringTemplates"
  | arrowFunctionTransformation => "arrowFunctions"
  | letTransformation => "let"
  | defaultArgsTransformation => "defaultArguments"
  | objectMethodsTransformation => "objectMethods"
  end.

(** The value of [o.transformers[k]] for the object at [l], [undefined]
    when [o.transformers] is not an object. *)
Definition flag (w : World) (l : loc) (k : string) : val :=
  match field (deref w l) "transformers" with
  | VObj o => field o k
  | _ => VUndefined
  end.

(** [undefined] and [null]: the values that have no properties. *)
Definition nullish (v : val) : bool :=
  match v with VUndefined | VNull => true | _ => false end.

(** A pass is enabled when its flag is set to a true value. *)
Definition enabled (w : World) (l : loc) (t : transformation) : bool :=
  truthy (flag w l (key t)).

(** The value a computation returned, if it returned. *)
Definition returned {A} (r : World * outcome A) : option A :=
  match r with
  | (_, Return a) => Some a
  | (_, Throw _) => None
  end.

(** The calls a caller makes on a constructed instance, and a run of a
    sequence of them.  A call that throws leaves the
    instance as it was and the world as the call left it; the caller goes
    on with the next call. *)
Inductive method :=
  | CallRead (text : val)
  | CallApplyTransformations
  | CallOut
  | CallWriteFile (filename : string) (callback : val).

Section perform.
Context `{!Collaborators}.

Definition perform (c : method) (this : Transformer) (w : World)
    : World * Transformer :=
  match c with
  | CallRead text =>
      match read this text w with
      | (w', Return this') => (w', this')
      | (w', Throw _) => (w', this)
      end
  | CallApplyTransformations =>
      match applyTransformations this w with
      | (w', Return this') => (w', this')
      | (w', Throw _) => (w', this)
      end
  | CallOut => (fst (out this w), this)
  | CallWriteFile filename callback =>
      (fst (writeFile this filename callback w), this)
  end.

Fixpoint perform_all (cs : list method) (this : Transformer) (w : World)
    : World * Transformer :=
  match cs with
  | [] => (w, this)
  | c :: cs' => let '(w', this') := perform c this w in
                perform_all cs' this' w'
  end.
End perform.

Section derived.
Context `{!Collaborators}.

(** The passes of a list applied one after the other, each to the tree
    the one before left. *)
Definition apply_passes (ts : list transformation) (tree : val) : val :=
  fold_left (λ tree t, run t tree) ts tree.

(** The text [out] returns: the generator's, formatted unless the
    option [formatter] is [false]. *)
Definition out_text (this : Transformer) (w : World) : string :=
  match field (deref w (options this)) "formatter" with
  | VBool false => codeGenerator_generate (ast this) (sourceCode this)
  | formatter =>
      formatter_format
        (codeGenerator_generate (ast this) (sourceCode this)) formatter
  end.

End derived.

(** The object under [transformers], [{}] if there is none. *)
Definition flags_of (o : gmap string val) : gmap string val :=
  match o !! "transformers" with Some (VObj md) => md | _ => ∅ end.

(** [keeps l k m]: whatever the world, and whether [m] returns or throws,
    the key [k] of the object at [l] holds after [m] what it held before. *)
Definition keeps {A} (l : loc) (k : string) (m : M A) : Prop :=
  ∀ w, deref (fst (m w)) l !! k = deref w l !! k.

(** ** Configurations and worlds for the runs on the toy collaborators *)

(** A configuration that turns arrow functions off. *)
Definition no_arrows : gmap string val :=
  <["transformers" := VObj (<["arrowFunctions" := VBool false]> ∅)]> ∅.

Definition no_arrows_passes : list transformation :=
  [classTransformation; templateStringTransformation; letTransformation;
   defaultArgsTransformation; objectMethodsTransformation].

(** A configuration that uses the name of the specification for the
    block-scoped-bindings pass. *)
Definition no_blockScopedBindings : gmap string val :=
  <["transformers" := VObj (<["blockScopedBindings" := VBool false]> ∅)]> ∅.

(** A configuration that turns that pass off under the name the code
    reads. *)
Definition no_let : gmap string val :=
  <["transformers" := VObj (<["let" := VBool false]> ∅)]> ∅.

(** A configuration that turns classes off and formatting on. *)
Definition no_classes_formatted : gmap string val :=
  <["transformers" := VObj (<["classes" := VBool false]> ∅)]>
    (<["formatter" := VObj ∅]> ∅).

(** The options of a caller of [astGenerator.readFile] who asks for an
    asynchronous read and gives a callback, and a world that holds them. *)
Definition async_options : gmap string val :=
  <["sync" := VBool false]> (<["callback" := VFun "done"]> ∅).

Definition w_async : World :=
  mkWorld (<[1 := async_options]> (heap w0)) (files w0) (readonly w0) [] [].

(** ** The collaborators, when they fail

    The code generator, the formatter and the passes are functions of
    libraries: they can throw like any other function.  Here they may.  A
    pass works on the tree in place, so when it throws it has left a tree
    behind: a pass gives the tree it left and the exception it threw, if
    it threw one. *)

Class FallibleCollaborators := {
  (* codeGenerator.generate(ast, {comment: true, format: ..., sourceCode}) *)
  generate_or_throw : val → val → outcome string;
  (* formatter.format(result, options) *)
  format_or_throw : string → val → outcome string;
  (* transformation(ast) *)
  run_or_throw : transformation → val → val * option error
}.

(** The completion of a call that threw [e], or returned. *)
Definition thrown (e : option error) : outcome unit :=
  match e with
  | Some e => Throw e
  | None => Return tt
  end.

(** The three methods of [transformer.js] that call these collaborators.
    A method that throws has changed [this] up to the throw: the methods
    give the instance as they left it, the world, and how they
    completed. *)
Module Fallible.
Section Fallible.
Context `{!FallibleCollaborators}.

(** [applyTransformation(transformation)] *)
Definition applyTransformation (this : Transformer)
    (transformation : val → val * option error) (w : World)
    : World * Transformer * outcome unit :=
  let '(tree, e) := transformation (ast this) in
  (w, with_ast tree this, thrown e).

(** The loop of [applyTransformations], from index [i] on: an exception
    of the body ends it. *)
Equations? applyTransformations_from (this : Transformer) (i : nat)
    (w : World) : World * Transformer * outcome unit
    by wf (length (transformations this) - i) lt :=
  applyTransformations_from this i w
    with inspect (transformations this !! i) := {
    | exist _ (Some transformation) Hi
        with inspect
               (applyTransformation this (run_or_throw transformation) w) := {
        | exist _ (w', this', Return _) Hbody =>
            applyTransformations_from this' (S i) w'
        | exist _ (w', this', Throw e) _ => (w', this', Throw e) }
    | exist _ None _ => (w, this, Return tt) }.
Proof.
  apply lookup_lt_Some in Hi. unfold applyTransformation in Hbody.
  destruct (run_or_throw _ (ast this)) as [tree e].
  injection Hbody as _ <- _. simpl. lia.
Qed.

(** [applyTransformations()] *)
Definition applyTransformations (this : Transformer) (w : World)
    : World * Transformer * outcome unit :=
  applyTransformations_from this 0 w.

(** [out()] *)
Definition out (this : Transformer) : M string :=
  result ← lift (generate_or_throw (ast this) (sourceCode this));
  formatter ← getField (options this) "formatter";
  if strict_neq_false formatter then
    formatter ← getField (options this) "formatter";
    lift (format_or_throw result formatter)
  else mret result.

(** The passes of a list run one after the other, each on the tree the
    one before left, up to the first that throws: the tree left and the
    exception, if any. *)
Fixpoint run_passes (ts : list transformation) (tree : val)
    : val * option error :=
  match ts with
  | [] => (tree, None)
  | t :: ts' =>
      match run_or_throw t tree with
      | (tree', None) => run_passes ts' tree'
      | (tree', Some e) => (tree', Some e)
      end
  end.

End Fallible.
End Fallible.

(** Collaborators that return are collaborators that may throw and do
    not. *)
Definition unfailing `{!Collaborators} : FallibleCollaborators := {|
  generate_or_throw ast sourceCode :=
    Return (codeGenerator_generate ast sourceCode);
  format_or_throw result formatter :=
    Return (formatter_format result formatter);
  run_or_throw t tree := (run t tree, None)
|}.

(** Toy collaborators that fail.  The generator and the passes throw on
    a tree that has no [body], which no parsed tree is; the formatter is
    that of [toy], and so are the passes on a tree that has one.  The
    kind of the exception is the toy's: the libraries choose their own. *)
Definition failing_toy : FallibleCollaborators := {|
  generate_or_throw ast _ :=
    match ast with
    | VObj o =>
        match field o "body" with
        | VStr s => Return s
        | _ => Throw TypeError
        end
    | _ => Throw TypeError
    end;
  format_or_throw result _ := Return (result ++ "\n")%string;
  run_or_throw t tree :=
    match tree with
    | VObj o =>
        match field o "body" with
        | VStr _ => (@run toy t tree, None)
        | _ => (tree, Some TypeError)
        end
    | _ => (tree, Some TypeError)
    end
|}.
(** ** Notions for the properties of reading *)

(** The keys [astGenerator.read] assigns in its [options]. *)
Definition parser_keys : list string :=
  ["ranges"; "onComment"; "onToken"; "plugins"].

(** [same_but l ks w w']: the world [w'] is the world [w] but for the keys
    [ks] of the object at [l]: same files, same pending operations, same
    log, same objects elsewhere, same other keys of that object. *)
Definition same_but (l : loc) (ks : list string) (w w' : World) : Prop :=
  files w' = files w ∧ readonly w' = readonly w
  ∧ queue w' = queue w ∧ log w' = log w
  ∧ (∀ l', l' ≠ l → heap w' !! l' = heap w !! l')
  ∧ (∀ k, k ∉ ks → deref w' l !! k = deref w l !! k).

(** [writes_only l ks m]: whether it returns or throws, [m] changes of the
    world the keys [ks] of the object at [l] at most. *)
Definition writes_only {A} (l : loc) (ks : list string) (m : M A) : Prop :=
  ∀ w, same_but l ks w (fst (m w)).

(** An options object as the parser is handed it: with the four keys as
    [astGenerator.read] assigns them before it parses. *)
Definition parser_options (o : gmap string val) : gmap string val :=
  <["plugins" := VObj (<["jsx" := VBool true]> ∅)]> (
  <["onToken" := VArr []]> (
  <["onComment" := VArr []]> (
  <["ranges" := VBool true]> o))).

(** The object [{sync: true, ecmaVersion: 6}] of [Transformer.readFile], as
    the parser is handed it for the file [filename]: with the key [coffee]
    that [astGenerator.readFile] adds and the keys of [astGenerator.read]. *)
Definition readFile_options (filename : string) : gmap string val :=
  parser_options (
    <["coffee" := VBool (astGenerator.is_coffee filename)]> (
    <["sync" := VBool true]> (
    <["ecmaVersion" := VNum 6]> ∅))).

(** The options of [astGenerator.readFile] once it has settled the key
    [coffee]: as given when it holds a value, by the file name when it is
    [undefined]. *)
Definition with_coffee (file : string) (o : gmap string val)
    : gmap string val :=
  if is_undefined (field o "coffee")
  then <["coffee" := VBool (astGenerator.is_coffee file)]> o
  else o.

(** The values lodash's [merge] assigns as they are: the primitives,
    [null] and the functions. *)
Definition atomic (v : val) : bool :=
  match v with
  | VNull | VBool _ | VNum _ | VStr _ | VFun _ => true
  | _ => false
  end.

Section parsing.
Context `{!Collaborators}.

(** The text handed to the parser: compiled first when [coffee] is a true
    value. *)
Definition source (coffee text : val) : outcome val :=
  if truthy coffee then coffee_compile text else Return text.

(** What parsing the text [js] under the options [o] gives an instance:
    the tree with its comments attached, and the text. *)
Definition parsed (this : Transformer) (js : val) (o : gmap string val)
    : outcome Transformer :=
  match acorn_parse js o with
  | Return (ast, comments, tokens) =>
      Return (with_sourceCode js
                (with_ast (escodegen_attachComments ast comments tokens)
                   this))
  | Throw e => Throw e
  end.

End parsing.

(** ** More configurations, instances and worlds for the runs *)

(** A configuration whose [transformers] entry is [null]. *)
Definition null_transformers : gmap string val :=
  <["transformers" := VNull]> ∅.

(** A fresh instance of the loaded module, and an instance that has read
    the text [x = 1]. *)
Definition fresh_instance : Transformer :=
  mkTransformer (VStr "") (VObj ∅) Transformer_defaultOptions priority.

Definition ready_instance : Transformer :=
  mkTransformer (VStr "x = 1") (VObj (<["body" := VStr "x = 1"]> ∅))
    Transformer_defaultOptions priority.

(** A world with a CoffeeScript file and the options of a caller of
    [astGenerator.readFile] who reads synchronously and turns the compiler
    off. *)
Definition w_coffee : World :=
  mkWorld (<[1 := <["sync" := VBool true]> (<["coffee" := VBool false]> ∅)]>
             (heap w0))
    (<["b.coffee" := "x = 1"%string]> ∅) ∅ [] [].

(** A world in which an asynchronous read of a missing file is pending,
    scheduled by a caller who gave no callback. *)
Definition w_pending : World :=
  mkWorld (<[1 := <["sync" := VBool false]> ∅]> (heap w0)) (files w0)
    (readonly w0) [FsReadFile "missing.js" 1] [].

(** A configuration that asks the parser for the 2015 edition. *)
Definition es6 : gmap string val := <["ecmaVersion" := VNum 6]> ∅.

(** * Properties *)

(** ** The merge *)

Lemma mergeVal_obj d ms :
  mergeVal d (VObj ms) =
  VObj (mergeObj (match d with Some (VObj md) => md | _ => ∅ end) ms).
Proof. reflexivity. Qed.

(** What a key holds after a merge: the destination's value where the
    source has none, the merged value elsewhere. *)
Lemma lookup_mergeObj md ms k :
  mergeObj md ms !! k =
  match ms !! k with
  | None | Some VUndefined => md !! k
  | Some s => Some (mergeVal (md !! k) s)
  end.
Proof.
  unfold mergeObj. rewrite lookup_union, map_lookup_imap.
  destruct (ms !! k) as [s|] eqn:Hs; simpl.
  - destruct s; simpl; try (by destruct (md !! k)).
  - by destruct (md !! k).
Qed.

Lemma field_mergeObj md ms k :
  field (mergeObj md ms) k =
  match ms !! k with
  | None | Some VUndefined => field md k
  | Some s => mergeVal (md !! k) s
  end.
Proof.
  unfold field. rewrite lookup_mergeObj.
  destruct (ms !! k) as [[]|]; reflexivity.
Qed.

(** ** The heap *)

Lemma deref_with_heap_eq w l o :
  deref (with_heap (<[l := o]> (heap w)) w) l = o.
Proof. unfold deref. simpl. apply lookup_total_insert_eq. Qed.

Lemma deref_with_heap_ne w l l' o :
  l ≠ l' → deref (with_heap (<[l := o]> (heap w)) w) l' = deref w l'.
Proof. intros. unfold deref. simpl. by apply lookup_total_insert_ne. Qed.

(** An assignment [o.k = v] leaves every other key of every object as it
    was. *)
Lemma setField_other l k v w l' k' :
  k ≠ k' → deref (fst (setField l k v w)) l' !! k' = deref w l' !! k'.
Proof.
  intros Hk. unfold setField. simpl.
  destruct (decide (l = l')) as [<-|Hl].
  - rewrite deref_with_heap_eq. by apply lookup_insert_ne.
  - by rewrite deref_with_heap_ne.
Qed.

(** ** The loop of [applyTransformations] *)

Section loop.
Context `{!Collaborators}.

Lemma applyTransformations_from_spec this i w :
  applyTransformations_from this i w =
  (w, Return (with_ast
                (apply_passes (drop i (transformations this)) (ast this))
                this)).
Proof.
  funelim (applyTransformations_from this i w).
  - (* past the end *)
    match goal with Hi : ?l !! ?i = None |- _ =>
      rewrite (drop_ge l i (proj1 (lookup_ge_None l i) Hi)) end.
    by destruct this.
  - (* the body ran and the loop went on *)
    match goal with IH : applyTransformations_from _ _ _ = (_, _) |- _ =>
      rewrite IH end.
    match goal with Hb : Return _ = Return _ |- _ =>
      injection Hb as <- end.
    simpl. by rewrite (drop_S _ _ _ Hi).
  - (* the body threw: it never does *)
    discriminate.
Qed.

Lemma applyTransformations_spec this w :
  applyTransformations this w =
  (w, Return (with_ast (apply_passes (transformations this) (ast this))
                this)).
Proof.
  unfold applyTransformations.
  by rewrite applyTransformations_from_spec, drop_0.
Qed.
End loop.

(** ** Construction *)

Section construction.
Context `{!Collaborators}.

(** [doTransform] reads the flag and nothing else; it fails only when
    [options.transformers] is [undefined] or [null]. *)
Lemma doTransform_spec k t this w :
  doTransform k t this w =
  (w, if nullish (field (deref w (options this)) "transformers")
      then Throw TypeError
      else Return (if truthy (flag w (options this) k)
                   then push t this else this)).
Proof.
  unfold doTransform, shouldTransform, flag, getField, getProp, throw.
  unfold mbind, mret, M_bind, M_ret.
  destruct (field (deref w (options this)) "transformers") eqn:Htr;
    try reflexivity.
  destruct (field o k) as [| |[]|[]|[]| | | |] eqn:Hflag; simpl;
    rewrite ?Htr, ?Hflag; reflexivity.
Qed.

Lemma prepareTransformations_spec this w :
  prepareTransformations this w =
  (w, if nullish (field (deref w (options this)) "transformers")
      then Throw TypeError
      else Return (mkTransformer (sourceCode this) (ast this)
                     (options this)
                     (transformations this ++
                      filter (λ t, enabled w (options this) t) priority))).
Proof.
  unfold prepareTransformations, mbind, M_bind.
  destruct this as [s a l ts]; simpl.
  assert (Hstep : ∀ k t ts',
    doTransform k t (mkTransformer s a l ts') w =
    (w, if nullish (field (deref w l) "transformers")
        then Throw TypeError
        else Return (mkTransformer s a l
                       (if truthy (flag w l k) then ts' ++ [t] else ts'))))
    by (intros; rewrite doTransform_spec; simpl;
        repeat case_match; reflexivity).
  rewrite Hstep.
  destruct (nullish (field (deref w l) "transformers")) eqn:Hnull;
    [reflexivity|].
  repeat (rewrite Hstep; cbv beta iota). do 3 f_equal.
  unfold priority, enabled. rewrite !filter_cons, filter_nil. simpl key.
  generalize (truthy (flag w l "classes")),
    (truthy (flag w l "stringTemplates")),
    (truthy (flag w l "arrowFunctions")), (truthy (flag w l "let")),
    (truthy (flag w l "defaultArguments")),
    (truthy (flag w l "objectMethods")).
  intros [] [] [] [] [] []; simpl;
    rewrite <- ?app_assoc, ?app_nil_r; reflexivity.
Qed.

(** The constructor merges the caller's object into the object that
    [Transformer.defaultOptions] names, keeps a reference to that same
    object, and computes the pass list from it. *)
Lemma constructor_spec opts w :
  let w' :=
    with_heap (<[Transformer_defaultOptions :=
                   mergeObj (deref w Transformer_defaultOptions) opts]>
                 (heap w)) w in
  constructor opts w =
  (w', if nullish
            (field (deref w' Transformer_defaultOptions) "transformers")
       then Throw TypeError
       else Return (mkTransformer (VStr "") (VObj ∅)
                      Transformer_defaultOptions
                      (filter (λ t, enabled w' Transformer_defaultOptions t)
                         priority))).
Proof.
  intros w'. unfold constructor, merge, mbind, M_bind.
  fold w'. by rewrite prepareTransformations_spec.
Qed.
End construction.

(** ** What a computation leaves alone *)

Section keeps.
Context {A B : Type} (l : loc) (k : string).

Lemma keeps_same_heap (m : M A) :
  (∀ w, heap (fst (m w)) = heap w) → keeps l k m.
Proof. intros Hm w. unfold deref. by rewrite Hm. Qed.

Lemma keeps_ret (a : A) : keeps l k (mret a).
Proof. by apply keeps_same_heap. Qed.

Lemma keeps_throw e : keeps l k (throw e : M A).
Proof. by apply keeps_same_heap. Qed.

Lemma keeps_lift (r : outcome A) : keeps l k (lift r).
Proof. by apply keeps_same_heap. Qed.

Lemma keeps_bind (m : M A) (f : A → M B) :
  keeps l k m → (∀ a, keeps l k (f a)) → keeps l k (m ≫= f).
Proof.
  intros Hm Hf w. unfold mbind, M_bind.
  specialize (Hm w). destruct (m w) as [w' [a|e]]; simpl in *.
  - by rewrite Hf.
  - done.
Qed.

Lemma keeps_if (b : bool) (m1 m2 : M A) :
  keeps l k m1 → keeps l k m2 → keeps l k (if b then m1 else m2).
Proof. by destruct b. Qed.
End keeps.

Lemma keeps_getField l k l' k' : keeps l k (getField l' k').
Proof. by apply keeps_same_heap. Qed.

Lemma keeps_setField l k l' k' v : k' ≠ k → keeps l k (setField l' k' v).
Proof. intros Hk w. by apply setField_other. Qed.

Lemma keeps_call l k f args : keeps l k (call f args).
Proof. apply keeps_same_heap. by destruct f. Qed.

Lemma keeps_fs_writeFile l k filename data callback :
  keeps l k (fs_writeFile filename data callback).
Proof. by apply keeps_same_heap. Qed.

Lemma keeps_fs_writeFileSync l k filename data :
  keeps l k (fs_writeFileSync filename data).
Proof.
  apply keeps_same_heap. intros w. unfold fs_writeFileSync.
  by case_decide.
Qed.

Create HintDb keeps.
#[global] Hint Resolve keeps_ret keeps_throw keeps_lift keeps_if
  keeps_getField keeps_call keeps_fs_writeFile keeps_fs_writeFileSync
  : keeps.

(** Splits a sequence into its steps and settles each. *)
Ltac keeps_steps :=
  repeat first
    [ apply keeps_bind; [| intros; repeat case_match ]
    | apply keeps_setField; congruence
    | by auto with keeps
    | by apply keeps_same_heap ].

Section keeps_methods.
Context `{!Collaborators}.

(** [astGenerator.read] writes four keys of its [options] argument and
    no other. *)
Lemma read_keeps l k js o :
  k ≠ "ranges" → k ≠ "onComment" → k ≠ "onToken" → k ≠ "plugins" →
  keeps l k (astGenerator.read js o).
Proof.
  intros. unfold astGenerator.read. keeps_steps.
Qed.

Lemma out_spec this w : out this w = (w, Return (out_text this w)).
Proof.
  unfold out, out_text, getField, mbind, mret, M_bind, M_ret.
  destruct (field _ _) as [| |[]| | | | | |] eqn:Hf; simpl;
    rewrite ?Hf; reflexivity.
Qed.

Lemma out_same_world this w : fst (out this w) = w.
Proof. by rewrite out_spec. Qed.

Lemma writeFile_keeps l k this filename callback :
  keeps l k (writeFile this filename callback).
Proof.
  unfold writeFile. apply keeps_bind.
  - apply keeps_same_heap. intros w. by rewrite out_same_world.
  - intros. auto with keeps.
Qed.

(** Nor does the completion of a scheduled operation write any other
    key: a write touches no object, a read ends in [astGenerator.read]. *)
Lemma turn_keeps l k w :
  k ≠ "ranges" → k ≠ "onComment" → k ≠ "onToken" → k ≠ "plugins" →
  deref (turn w) l !! k = deref w l !! k.
Proof.
  intros. unfold turn.
  destruct (queue w) as [|[filename data callback|file o] q]; [done| |];
    simpl.
  - unfold fs_writeFileSync. case_decide; by destruct callback.
  - assert (Hc : ∀ js, keeps l k (astGenerator.readFile_closure o js)).
    { intros js. unfold astGenerator.readFile_closure.
      apply keeps_bind; [auto with keeps|]. intros cb.
      apply keeps_if; [|auto with keeps].
      apply keeps_bind; [by apply read_keeps|].
      intros [a js']. auto with keeps. }
    specialize
      (Hc (first_parameter (readFile_arguments file (with_queue q w)))
         (with_queue q w)).
    destruct (astGenerator.readFile_closure _ _ _) as [w' [[]|e]]; exact Hc.
Qed.

End keeps_methods.

(** ** The pass list and its application *)

Lemma priority_NoDup : NoDup priority.
Proof. compute_done. Qed.

(** C1: for every configuration from which a transformer is constructed,
    the pass list is exactly the passes whose flag is set in the merged
    options at construction, in the priority order Classes,
    TemplateStrings, ArrowFunctions, BlockScopedBindings, DefaultArguments,
    ObjectMethodShorthand, without repetition; and [applyTransformations],
    whenever it is called later and on whatever tree the instance then
    holds, applies these passes and no other, each once, in that order,
    each to the tree the previous one left. *)
Theorem applyTransformations_applies_enabled_passes `{!Collaborators}
    opts w w' this :
  constructor opts w = (w', Return this) →
  transformations this = filter (λ t, enabled w' (options this) t) priority
  ∧ NoDup (transformations this)
  ∧ ∀ tree text w2,
      applyTransformations (with_sourceCode text (with_ast tree this)) w2 =
      (w2, Return (with_sourceCode text (with_ast
         (apply_passes (filter (λ t, enabled w' (options this) t) priority)
            tree) this))).
Proof.
  intros Hc. pose proof (constructor_spec opts w) as Hs. simpl in Hs.
  rewrite Hc in Hs. destruct (nullish _); [discriminate|].
  injection Hs as -> ->. simpl. split; [done|]. split.
  - apply NoDup_filter, priority_NoDup.
  - intros tree text w2. by rewrite applyTransformations_spec.
Qed.

(** ** Calls out of order *)

Section fallible.
Context `{!FallibleCollaborators}.

Lemma Fallible_applyTransformations_from_spec this i w :
  Fallible.applyTransformations_from this i w =
  (w,
   with_ast (fst (Fallible.run_passes (drop i (transformations this))
                    (ast this))) this,
   thrown (snd (Fallible.run_passes (drop i (transformations this))
                  (ast this)))).
Proof.
  funelim (Fallible.applyTransformations_from this i w).
  - (* past the end *)
    match goal with Hi : ?l !! ?i = None |- _ =>
      rewrite (drop_ge l i (proj1 (lookup_ge_None l i) Hi)) end.
    by destruct this.
  - (* the body returned and the loop went on *)
    match goal with
      IH : Fallible.applyTransformations_from _ _ _ = (_, _, _) |- _ =>
        rewrite IH end.
    rewrite (drop_S _ _ _ Hi). simpl.
    pose proof Hbody as Hb. unfold Fallible.applyTransformation in Hb.
    repeat match goal with E : sigmaI _ _ _ = _ |- _ => clear E end.
    clear Hbody.
    destruct (run_or_throw _ (ast this)) as [tree [e|]];
      [discriminate|].
    by injection Hb as <- <- _.
  - (* the body threw *)
    rewrite (drop_S _ _ _ Hi). simpl.
    match goal with Hbody : _ = (_, _, Throw _) |- _ =>
      pose proof Hbody as Hb end.
    unfold Fallible.applyTransformation in Hb.
    repeat match goal with E : sigmaI _ _ _ = _ |- _ => clear E end.
    repeat match goal with E : _ = (_, _, Throw _) |- _ =>
      tryif constr_eq E Hb then fail else clear E end.
    destruct (run_or_throw _ (ast this)) as [tree [e'|]];
      [by injection Hb as <- <- <- | discriminate].
Qed.

Lemma Fallible_applyTransformations_spec this w :
  Fallible.applyTransformations this w =
  (w,
   with_ast (fst (Fallible.run_passes (transformations this) (ast this)))
     this,
   thrown (snd (Fallible.run_passes (transformations this) (ast this)))).
Proof.
  unfold Fallible.applyTransformations.
  by rewrite Fallible_applyTransformations_from_spec, drop_0.
Qed.

(** What a run of passes throws, one of the passes threw. *)
Lemma run_passes_thrown ts tree e :
  snd (Fallible.run_passes ts tree) = Some e →
  ∃ t tree', t ∈ ts ∧ snd (run_or_throw t tree') = Some e.
Proof.
  revert tree. induction ts as [|t ts IH]; intros tree; simpl; [done|].
  destruct (run_or_throw t tree) as [tree' [e'|]] eqn:Ht; simpl.
  - intros [= ->]. exists t, tree. split; [by left|]. by rewrite Ht.
  - intros He. destruct (IH tree' He) as (t' & tree'' & Hin & Hthrow).
    exists t', tree''. split; [by right | done].
Qed.

Lemma Fallible_out_spec this w :
  Fallible.out this w =
  (w, match generate_or_throw (ast this) (sourceCode this) with
      | Throw e => Throw e
      | Return result =>
          match field (deref w (options this)) "formatter" with
          | VBool false => Return result
          | formatter => format_or_throw result formatter
          end
      end).
Proof.
  unfold Fallible.out, getField, lift, mbind, mret, M_bind, M_ret.
  destruct (generate_or_throw _ _) as [result|e]; [|done].
  destruct (field (deref w (options this)) "formatter")
    as [| |[]| | | | | |] eqn:Hformatter; simpl;
    rewrite ?Hformatter; try done;
    match goal with |- context [format_or_throw ?r ?f] =>
      by destruct (format_or_throw r f) end.
Qed.

End fallible.

(** With collaborators that return, the methods are those of the
    sections above. *)
Lemma unfailing_applyTransformations `{!Collaborators} this w :
  Fallible.applyTransformations (H := unfailing) this w =
  (w, with_ast (apply_passes (transformations this) (ast this)) this,
   Return tt).
Proof.
  rewrite Fallible_applyTransformations_spec.
  assert (Hrun : ∀ ts tree,
            Fallible.run_passes (H := unfailing) ts tree
            = (apply_passes ts tree, None)).
  { induction ts as [|t ts IH]; intros tree; [done|]. simpl. apply IH. }
  by rewrite Hrun.
Qed.

Lemma unfailing_out `{!Collaborators} this w :
  Fallible.out (H := unfailing) this w = out this w.
Proof.
  rewrite Fallible_out_spec, out_spec. unfold out_text. simpl.
  by destruct (field _ _) as [| |[]| | | | | |].
Qed.

(** C2, as the code has it: the methods check no state and throw no
    [StateError] of their own.  On a freshly constructed instance, before
    any [read], [applyTransformations] runs the instance's passes in
    order on the initial empty tree [{}], up to the first that throws: it
    returns when they all return, and what it throws otherwise, a pass
    threw.  And [out], whatever tree the instance holds, lowered or not,
    hands it to the code generator, and the text to the formatter unless
    the option [formatter] is [false]: it returns the text when they
    return, and throws what they throw. *)
Theorem out_of_order_calls_are_not_checked `{!FallibleCollaborators}
    opts w w' this :
  constructor opts w = (w', Return this) →
  Fallible.applyTransformations this w' =
    (w',
     with_ast (fst (Fallible.run_passes (transformations this) (VObj ∅)))
       this,
     thrown (snd (Fallible.run_passes (transformations this) (VObj ∅))))
  ∧ (∀ e, snd (Fallible.applyTransformations this w') = Throw e →
          ∃ t tree, t ∈ transformations this
                    ∧ snd (run_or_throw t tree) = Some e)
  ∧ ∀ tree text w2,
      Fallible.out (with_sourceCode text (with_ast tree this)) w2 =
      (w2, match generate_or_throw tree text with
           | Throw e => Throw e
           | Return result =>
               match field (deref w2 (options this)) "formatter" with
               | VBool false => Return result
               | formatter => format_or_throw result formatter
               end
           end).
Proof.
  intros Hc. pose proof (constructor_spec opts w) as Hs. simpl in Hs.
  rewrite Hc in Hs. destruct (nullish _); [discriminate|].
  injection Hs as -> ->. split; [|split].
  - by rewrite Fallible_applyTransformations_spec.
  - intros e. rewrite Fallible_applyTransformations_spec. simpl.
    destruct (snd (Fallible.run_passes _ _)) as [e'|] eqn:He; [|done].
    intros [= ->]. by eapply run_passes_thrown.
  - intros tree text w2. by rewrite Fallible_out_spec.
Qed.

(** ** The flags after a construction *)

(** When the caller gives an object of flags, the shared options hold,
    after the merge, that object merged into the flags they held. *)
Lemma flag_after_merge opts flags w k :
  opts !! "transformers" = Some (VObj flags) →
  let w' :=
    with_heap (<[Transformer_defaultOptions :=
                   mergeObj (deref w Transformer_defaultOptions) opts]>
                 (heap w)) w in
  field (deref w' Transformer_defaultOptions) "transformers" =
    VObj (mergeObj (flags_of (deref w Transformer_defaultOptions)) flags)
  ∧ flag w' Transformer_defaultOptions k =
    field (mergeObj (flags_of (deref w Transformer_defaultOptions)) flags) k.
Proof.
  intros Hopts w'. unfold flag, w'. rewrite deref_with_heap_eq.
  rewrite field_mergeObj, Hopts, mergeVal_obj. done.
Qed.

(** From the module as loaded, a construction without overrides has the
    six passes and leaves formatting off, and the world as it was. *)
Lemma fresh_defaults `{!Collaborators} fs ro :
  constructor ∅ (loaded fs ro) =
    (loaded fs ro,
     Return (mkTransformer (VStr "") (VObj ∅) Transformer_defaultOptions
               priority))
  ∧ field (deref (loaded fs ro) Transformer_defaultOptions) "formatter"
    = VBool false.
Proof. rewrite constructor_spec. by vm_compute. Qed.

(** The pass list is a function of the entry [transformers] alone. *)
Lemma enabled_ext w1 w2 l1 l2 t :
  field (deref w1 l1) "transformers" = field (deref w2 l2) "transformers" →
  enabled w1 l1 t = enabled w2 l2 t.
Proof. intros Heq. unfold enabled, flag. by rewrite Heq. Qed.

(** A key of the configuration other than [transformers] changes neither
    whether the construction succeeds nor which passes it lists. *)
Lemma unknown_keys_ignored `{!Collaborators} opts k v w :
  k ≠ "transformers" →
  transformations <$> returned (constructor (<[k := v]> opts) w)
  = transformations <$> returned (constructor opts w).
Proof.
  intros Hk. rewrite !constructor_spec.
  set (w1 := with_heap _ w). set (w2 := with_heap _ w).
  assert (Heq : field (deref w1 Transformer_defaultOptions) "transformers"
              = field (deref w2 Transformer_defaultOptions) "transformers").
  { unfold w1, w2. rewrite !deref_with_heap_eq, !field_mergeObj.
    by rewrite lookup_insert_ne. }
  rewrite Heq. destruct (nullish _); [done|]. simpl. f_equal.
  apply list_filter_iff. intros t. by rewrite (enabled_ext w1 w2 _ _ t Heq).
Qed.

(** Nor does a flag under a name that is not the key of a pass. *)
Lemma unknown_flags_ignored `{!Collaborators} opts flags k v w :
  (∀ t, key t ≠ k) →
  opts !! "transformers" = Some (VObj flags) →
  transformations <$> returned (constructor
    (<["transformers" := VObj (<[k := v]> flags)]> opts) w)
  = transformations <$> returned (constructor opts w).
Proof.
  intros Hk Hopts. rewrite !constructor_spec.
  set (opts' := <["transformers" := _]> opts).
  assert (Hopts' : opts' !! "transformers" = Some (VObj (<[k := v]> flags)))
    by apply lookup_insert_eq.
  destruct (flag_after_merge opts' _ w "let" Hopts') as [-> _].
  destruct (flag_after_merge opts _ w "let" Hopts) as [-> _].
  simpl. f_equal. apply list_filter_iff. intros t. unfold enabled.
  destruct (flag_after_merge opts' _ w (key t) Hopts') as [_ ->].
  destruct (flag_after_merge opts _ w (key t) Hopts) as [_ ->].
  rewrite !field_mergeObj, lookup_insert_ne; [done|]. by apply not_eq_sym.
Qed.

(** C3, as the code has it: the pass for block-scoped bindings is
    registered under the key [let].  For every caller configuration whose
    [transformers] entry is an object, the construction succeeds and
    [transformers.let] decides: [false] excludes the pass, [true] includes
    it; with the defaults as compiled in, a configuration without [let]
    leaves the pass in.  The key [transformers.blockScopedBindings] is not
    read: whatever it is set to, the pass list is the same. *)
Theorem let_key_controls_block_scoped_pass `{!Collaborators} opts flags w :
  opts !! "transformers" = Some (VObj flags) →
  ∃ w' this, constructor opts w = (w', Return this)
  ∧ (flags !! "let" = Some (VBool false) →
       letTransformation ∉ transformations this)
  ∧ (flags !! "let" = Some (VBool true) →
       letTransformation ∈ transformations this)
  ∧ (flags !! "let" = None →
       deref w Transformer_defaultOptions = defaultOptions →
       letTransformation ∈ transformations this)
  ∧ ∀ v, transformations <$> returned (constructor
           (<["transformers" := VObj (<["blockScopedBindings" := v]> flags)]>
              opts) w)
         = Some (transformations this).
Proof.
  intros Hopts. pose proof (constructor_spec opts w) as Hs. simpl in Hs.
  destruct (flag_after_merge opts flags w "let" Hopts) as [Htr Hlet].
  rewrite Htr in Hs. simpl in Hs.
  eexists _, _. split; [exact Hs|]. simpl.
  assert (Hin : letTransformation ∈ filter (λ t, enabled
     (with_heap (<[Transformer_defaultOptions :=
        mergeObj (deref w Transformer_defaultOptions) opts]> (heap w)) w)
     Transformer_defaultOptions t) priority ↔
     truthy (field (mergeObj (flags_of (deref w Transformer_defaultOptions))
                      flags) "let")).
  { rewrite list_elem_of_filter. unfold enabled. simpl key. rewrite Hlet.
    split; [by intros [? _]|]. intros. split; [done|]. compute_done. }
  rewrite Hin, field_mergeObj. repeat split.
  - intros ->. simpl. auto.
  - by intros ->.
  - intros -> ->. done.
  - intros v.
    rewrite (unknown_flags_ignored opts flags "blockScopedBindings" v w);
      [by rewrite Hs | by intros [] | done].
Qed.

(** ** The configuration after construction *)

Section configuration.
Context `{!Collaborators}.

(** One call leaves the reference, the pass list and the two settings
    as they were, whether it returns or throws. *)
Lemma perform_keeps c this w k l :
  k ≠ "ranges" → k ≠ "onComment" → k ≠ "onToken" → k ≠ "plugins" →
  options (snd (perform c this w)) = options this
  ∧ transformations (snd (perform c this w)) = transformations this
  ∧ deref (fst (perform c this w)) l !! k = deref w l !! k.
Proof.
  intros. destruct c as [text| | |filename callback]; simpl.
  - pose proof (read_keeps l k text (options this)) as Hk.
    unfold read, mbind, mret, M_bind, M_ret.
    specialize (Hk ltac:(done) ltac:(done) ltac:(done) ltac:(done) w).
    destruct (astGenerator.read text (options this) w) as [w' [[a js]|e]];
      simpl in *; auto.
  - rewrite applyTransformations_spec. auto.
  - rewrite out_same_world. auto.
  - repeat split. apply writeFile_keeps.
Qed.
End configuration.

(** C4: on a constructed transformer, every call of [read],
    [applyTransformations], [out] and [writeFile], in any sequence and
    whether it returns or throws, leaves the options reference, the entry
    [transformers] (the six flags) and the entry [formatter] of the
    options object, and the pass list, as they were. *)
Theorem configuration_unchanged_by_calls `{!Collaborators} cs this w :
  options (snd (perform_all cs this w)) = options this
  ∧ transformations (snd (perform_all cs this w)) = transformations this
  ∧ deref (fst (perform_all cs this w)) (options this) !! "transformers"
    = deref w (options this) !! "transformers"
  ∧ deref (fst (perform_all cs this w)) (options this) !! "formatter"
    = deref w (options this) !! "formatter".
Proof.
  revert this w. induction cs as [|c cs IH]; intros this w; simpl; [done|].
  destruct (perform c this w) as [w' this'] eqn:Hp.
  destruct (perform_keeps c this w "transformers" (options this))
    as (Ho & Ht & Htr); try done.
  destruct (perform_keeps c this w "formatter" (options this))
    as (_ & _ & Hfm); try done.
  rewrite Hp in *. simpl in *.
  destruct (IH this' w') as (-> & -> & IH3 & IH4).
  rewrite Ho in *. rewrite IH3, IH4. auto.
Qed.

(** C6: [out] returns the generator's text unchanged when the option
    [formatter] is [false], and the formatter's rendering of that text,
    under that option, when it is anything else. *)
Theorem out_formats_unless_disabled `{!Collaborators} this w :
  out this w =
  (w, Return
        match field (deref w (options this)) "formatter" with
        | VBool false => codeGenerator_generate (ast this) (sourceCode this)
        | formatter =>
            formatter_format
              (codeGenerator_generate (ast this) (sourceCode this)) formatter
        end).
Proof.
  unfold out, getField, mbind, mret, M_bind, M_ret.
  destruct (field (deref w (options this)) "formatter")
    as [| |[]| | | | | |] eqn:Hformatter; simpl;
    rewrite ?Hformatter; reflexivity.
Qed.

(** C10: [applyTransformation], for every function given as the pass, and
    [applyTransformations] return an instance that differs from the one
    they were called on in its tree at most: the source text, the options
    reference and the pass list are the same, and so is the world, the
    options object with it. *)
Theorem applyTransformation_changes_ast_only `{!Collaborators}
    this (transformation : val → val) w :
  (∃ this', applyTransformation this transformation w = (w, Return this')
     ∧ sourceCode this' = sourceCode this
     ∧ options this' = options this
     ∧ transformations this' = transformations this)
  ∧ (∃ this', applyTransformations this w = (w, Return this')
     ∧ sourceCode this' = sourceCode this
     ∧ options this' = options this
     ∧ transformations this' = transformations this).
Proof.
  split.
  - by eexists.
  - rewrite applyTransformations_spec. by eexists.
Qed.

(** ** Writing and reading files *)

(** C7: [writeFile] first renders the text with [out].  With a function as
    callback it writes nothing and calls nothing before it returns: it
    schedules one [fs.writeFile] of that text, and when that operation
    completes, in whatever world, the callback is called exactly once,
    with the error if the write failed and with [null] if the file was
    written.  With anything else as callback it writes before it returns,
    or throws the error, and schedules nothing. *)
Theorem writeFile_sync_or_async `{!Collaborators} this filename callback w :
  ∃ code, out this w = (w, Return code) ∧
  match callback with
  | VFun f =>
      writeFile this filename callback w =
        (with_queue (queue w ++ [FsWriteFile filename code callback]) w,
         Return tt)
      ∧ ∀ w2, runTask (FsWriteFile filename code callback) w2 =
          if decide (filename ∈ readonly w2)
          then with_log (log w2 ++ [Called f [VError (IOError filename)]]) w2
          else with_log (log w2 ++ [Called f [VNull]])
                 (with_files (<[filename := code]> (files w2)) w2)
  | _ =>
      writeFile this filename callback w =
        if decide (filename ∈ readonly w)
        then (w, Throw (IOError filename))
        else (with_files (<[filename := code]> (files w)) w, Return tt)
  end.
Proof.
  exists (out_text this w). split; [apply out_spec|].
  unfold writeFile, mbind, M_bind. rewrite out_spec.
  destruct callback; simpl; try reflexivity.
  split; [reflexivity|]. intros w2. unfold fs_writeFileSync.
  by case_decide.
Qed.

(** What completes an asynchronous read: the closure is given [null] when
    the file was read and the error when it was not; the text of the file
    goes to a second argument that the closure does not have. *)
Lemma readFile_completion `{!Collaborators} file options w :
  runTask (FsReadFile file options) w =
  settle (astGenerator.readFile_closure options
            match files w !! file with
            | Some _ => VNull
            | None => VError (IOError file)
            end w).
Proof.
  unfold runTask, readFile_arguments. by destruct (files w !! file).
Qed.

(** ** The shared defaults *)

(** C9: a construction writes the caller's overrides into the object that
    [Transformer.defaultOptions] names: after it, whether it returned or
    threw, that object is the merge of what it was with the overrides.  So
    there are overrides such that, from the module as loaded, a second
    construction without overrides gets a shorter pass list than a first
    construction without overrides gets. *)
Theorem constructor_mutates_defaultOptions `{!Collaborators} :
  (∀ opts w,
     heap (fst (constructor opts w)) =
     <[Transformer_defaultOptions :=
         mergeObj (deref w Transformer_defaultOptions) opts]> (heap w))
  ∧ ∃ opts, ∀ fs ro,
      transformations <$> returned (constructor ∅ (loaded fs ro))
        = Some priority
      ∧ transformations <$> returned
          ((_ ← constructor opts; constructor ∅) (loaded fs ro))
        = Some [templateStringTransformation; arrowFunctionTransformation;
                letTransformation; defaultArgsTransformation;
                objectMethodsTransformation].
Proof.
  split.
  - intros opts w. by rewrite constructor_spec.
  - exists (<["transformers" := VObj (<["classes" := VBool false]> ∅)]> ∅).
    intros fs ro. unfold mbind, M_bind.
    rewrite (constructor_spec ∅). rewrite (constructor_spec (<[_ := _]> ∅)).
    split; [by vm_compute|].
    match goal with |- context [nullish ?v] =>
      replace (nullish v) with false by (by vm_compute) end.
    rewrite constructor_spec. by vm_compute.
Qed.

(** * Further properties of the two files *)

(** ** What reading changes *)

Lemma same_but_refl l ks w : same_but l ks w w.
Proof. by repeat split. Qed.

Lemma same_but_trans l ks w1 w2 w3 :
  same_but l ks w1 w2 → same_but l ks w2 w3 → same_but l ks w1 w3.
Proof.
  intros (?&?&?&?&Hh1&Hk1) (?&?&?&?&Hh2&Hk2).
  repeat split; try congruence.
  - intros l' Hl. by rewrite Hh2, Hh1.
  - intros k Hk. by rewrite Hk2, Hk1.
Qed.

Lemma same_but_same_world l ks w w' : w' = w → same_but l ks w w'.
Proof. intros ->. apply same_but_refl. Qed.

Section writes_only.
Context {A B : Type} (l : loc) (ks : list string).

Lemma writes_only_pure (m : M A) :
  (∀ w, fst (m w) = w) → writes_only l ks m.
Proof. intros Hm w. by apply same_but_same_world. Qed.

Lemma writes_only_bind (m : M A) (f : A → M B) :
  writes_only l ks m → (∀ a, writes_only l ks (f a)) →
  writes_only l ks (m ≫= f).
Proof.
  intros Hm Hf w. unfold mbind, M_bind.
  specialize (Hm w). destruct (m w) as [w' [a|e]]; simpl in *; [|done].
  eapply same_but_trans; [exact Hm | apply Hf].
Qed.

Lemma writes_only_if (b : bool) (m1 m2 : M A) :
  writes_only l ks m1 → writes_only l ks m2 →
  writes_only l ks (if b then m1 else m2).
Proof. by destruct b. Qed.
End writes_only.

Lemma writes_only_setField l ks k v :
  k ∈ ks → writes_only l ks (setField l k v).
Proof.
  intros Hk w. unfold setField. simpl. repeat split; simpl.
  - intros l' Hl. apply lookup_insert_ne. congruence.
  - intros k' Hk'. rewrite deref_with_heap_eq. apply lookup_insert_ne.
    by intros ->.
Qed.

(** ** Steps of the monad *)

Lemma bind_setField {A} l k v (f : unit → M A) w :
  (setField l k v ≫= f) w = f tt (fst (setField l k v w)).
Proof. reflexivity. Qed.

Lemma bind_getField {A} l k (f : val → M A) w :
  (getField l k ≫= f) w = f (field (deref w l) k) w.
Proof. reflexivity. Qed.

Lemma bind_alloc {A} o (f : loc → M A) w :
  (alloc o ≫= f) w =
  f (fresh (dom (heap w)))
    (with_heap (<[fresh (dom (heap w)) := o]> (heap w)) w).
Proof. reflexivity. Qed.

Lemma World_eq w w' :
  heap w = heap w' → files w = files w' → readonly w = readonly w' →
  queue w = queue w' → log w = log w' → w = w'.
Proof. destruct w, w'; simpl; congruence. Qed.

(** An assignment to an object just assigned: the object is replaced. *)
Lemma setField_with_heap l k v o w :
  fst (setField l k v (with_heap (<[l := o]> (heap w)) w)) =
  with_heap (<[l := <[k := v]> o]> (heap w)) w.
Proof.
  unfold setField. rewrite deref_with_heap_eq. simpl.
  unfold with_heap. simpl. by rewrite insert_insert_eq.
Qed.

Lemma setField_fst l k v w :
  fst (setField l k v w) =
  with_heap (<[l := <[k := v]> (deref w l)]> (heap w)) w.
Proof. reflexivity. Qed.

(** The four assignments of [astGenerator.read], as one. *)
Lemma reset_parser_keys l w v1 v2 v3 v4 :
  fst (setField l "plugins" v4 (fst (setField l "onToken" v3
    (fst (setField l "onComment" v2 (fst (setField l "ranges" v1 w)))))))
  = with_heap (<[l := <["plugins" := v4]> (<["onToken" := v3]>
      (<["onComment" := v2]> (<["ranges" := v1]> (deref w l))))]> (heap w)) w.
Proof. rewrite (setField_fst l "ranges"). by rewrite !setField_with_heap. Qed.

Section reading.
Context `{!Collaborators}.

Lemma read_same_but js l :
  writes_only l parser_keys (astGenerator.read js l).
Proof.
  unfold astGenerator.read.
  repeat first
    [ apply writes_only_bind; [| intros; repeat case_match ]
    | apply writes_only_setField; compute_done
    | by apply writes_only_pure ].
Qed.

(** X1: whether it returns or throws, [astGenerator.read] changes of the
    world the keys [ranges], [onComment], [onToken] and [plugins] of its
    [options] object and nothing else: the files, the pending operations
    and the log are the same, every other object is the same, and every
    other key of [options] holds what it held. *)
Theorem read_changes_parser_keys_only js l w :
  files (fst (astGenerator.read js l w)) = files w
  ∧ queue (fst (astGenerator.read js l w)) = queue w
  ∧ log (fst (astGenerator.read js l w)) = log w
  ∧ (∀ l', l' ≠ l →
          heap (fst (astGenerator.read js l w)) !! l' = heap w !! l')
  ∧ (∀ k, k ≠ "ranges" → k ≠ "onComment" → k ≠ "onToken" →
          k ≠ "plugins" →
          deref (fst (astGenerator.read js l w)) l !! k = deref w l !! k).
Proof.
  destruct (read_same_but js l w) as (Hf & _ & Hq & Hl & Hh & Hk).
  repeat split; try done.
  intros k ? ? ? ?. apply Hk. unfold parser_keys.
  rewrite !elem_of_cons, elem_of_nil. intros [?|[?|[?|[?|[]]]]]; done.
Qed.

(** Worlds that differ in the parser's keys at most are the same to
    [astGenerator.read]: same outcome, same world after. *)
Lemma read_from_same_but js l w w' :
  same_but l parser_keys w w' →
  astGenerator.read js l w' = astGenerator.read js l w.
Proof.
  intros (Hf & Hr & Hq & Hl & Hh & Hk).
  unfold astGenerator.read. rewrite !bind_setField, !reset_parser_keys.
  match goal with |- ?f ?a = ?g ?b => assert (Hw : a = b) end;
    [|by rewrite Hw].
  apply World_eq; simpl; try done.
  apply map_eq. intros i. destruct (decide (i = l)) as [->|Hi].
  - rewrite !lookup_insert_eq. f_equal. apply map_eq. intros k.
    destruct (decide (k ∈ parser_keys)) as [Hin|Hout].
    + rewrite !lookup_insert. repeat case_decide; try done.
      exfalso. unfold parser_keys in Hin.
      repeat (apply elem_of_cons in Hin as [->|Hin]; [done|]).
      by apply elem_of_nil in Hin.
    + assert (k ≠ "ranges" ∧ k ≠ "onComment" ∧ k ≠ "onToken"
              ∧ k ≠ "plugins") as (?&?&?&?)
        by (repeat split; intros ->; apply Hout; compute_done).
      rewrite !lookup_insert_ne by congruence. by apply Hk.
  - rewrite !lookup_insert_ne by done. by apply Hh.
Qed.

(** X2: what the caller stored under [ranges], [onComment], [onToken] or
    [plugins] is overwritten before the parser sees it: for each of these
    keys, [astGenerator.read] returns the same and leaves the same world
    whatever the key was set to. *)
Theorem read_overwrites_parser_keys js l k v w :
  k ∈ parser_keys →
  astGenerator.read js l (fst (setField l k v w)) = astGenerator.read js l w.
Proof.
  intros Hk. apply read_from_same_but.
  by apply (writes_only_setField l parser_keys k v).
Qed.

(** X3: the last [read] wins.  A [read] of [text2] after a [read] of
    [text1], whether that one returned or threw, returns the instance or
    throws the exception that the [read] of [text2] alone does, and leaves
    the same world. *)
Theorem last_read_wins this text1 text2 w :
  read (snd (perform (CallRead text1) this w)) text2
       (fst (perform (CallRead text1) this w))
  = read this text2 w.
Proof.
  pose proof (read_same_but text1 (options this) w) as Hsame.
  simpl. unfold read at 2 3, mbind, M_bind.
  destruct (astGenerator.read text1 (options this) w) as [w1 [[a1 js1]|e]];
    simpl in *; unfold read, mbind, M_bind; simpl;
    rewrite (read_from_same_but text2 (options this) w w1 Hsame);
    by destruct (astGenerator.read text2 (options this) w) as [? [[]|]].
Qed.

Lemma field_parser_options o k :
  k ∉ parser_keys → field (parser_options o) k = field o k.
Proof.
  intros Hout.
  assert (k ≠ "ranges" ∧ k ≠ "onComment" ∧ k ≠ "onToken"
          ∧ k ≠ "plugins") as (?&?&?&?)
    by (repeat split; intros ->; apply Hout; compute_done).
  unfold field, parser_options. by rewrite !lookup_insert_ne by congruence.
Qed.

(** [astGenerator.read], its assignments done. *)
Lemma astGenerator_read_outcome js l w :
  snd (astGenerator.read js l w) =
  match source (field (deref w l) "coffee") js with
  | Throw e => Throw e
  | Return js' =>
      match acorn_parse js' (parser_options (deref w l)) with
      | Return (ast, comments, tokens) =>
          Return (escodegen_attachComments ast comments tokens, js')
      | Throw e => Throw e
      end
  end.
Proof.
  unfold astGenerator.read. rewrite !bind_setField, !reset_parser_keys.
  fold (parser_options (deref w l)).
  rewrite bind_getField, deref_with_heap_eq.
  rewrite field_parser_options by compute_done.
  unfold source, mbind, M_bind, lift.
  destruct (truthy _); [destruct (coffee_compile js) as [js'|e]|]; simpl;
    try done; rewrite deref_with_heap_eq;
    by destruct (acorn_parse _ _) as [[[a c] t]|e].
Qed.

(** X4: what [read] returns or throws.  The text is compiled first when
    the instance's option [coffee] is a true value, and an exception of
    the compiler is thrown on; the parser is handed the text and the
    instance's options with the four parser keys reset, and an exception
    of the parser is thrown on; otherwise the instance comes back with the
    parsed tree, comments attached, and with the text that was parsed as
    its source.  [read] throws nothing of its own. *)
Theorem read_outcome this text w :
  snd (read this text w) =
  match source (field (deref w (options this)) "coffee") text with
  | Throw e => Throw e
  | Return js => parsed this js (parser_options (deref w (options this)))
  end.
Proof.
  pose proof (astGenerator_read_outcome text (options this) w) as Hr.
  unfold read, parsed, mbind, M_bind.
  destruct (astGenerator.read text (options this) w) as [w' [[a js]|e]];
    simpl in *;
    (destruct (source _ _) as [js'|e'];
       [destruct (acorn_parse _ _) as [[[a' c] t]|e'']|]);
    congruence.
Qed.

(** ** Reading a file *)

Lemma same_but_mono l ks ks' w w' :
  ks ⊆ ks' → same_but l ks w w' → same_but l ks' w w'.
Proof.
  intros Hsub (?&?&?&?&?&Hk). repeat split; try done.
  intros k Hout. apply Hk. intros Hin. by apply Hout, Hsub.
Qed.

(** With [sync] a true value, [astGenerator.readFile] changes of the world
    the key [coffee] and the parser's keys of its [options] at most: it
    schedules nothing and calls nothing. *)
Lemma astGenerator_readFile_sync_same_but file l w :
  truthy (field (deref w l) "sync") = true →
  same_but l ("coffee" :: parser_keys) w
    (fst (astGenerator.readFile file l w)).
Proof.
  intros Hsync. unfold astGenerator.readFile. rewrite bind_getField.
  assert (Hstep : ∃ w1, same_but l ("coffee" :: parser_keys) w w1
            ∧ truthy (field (deref w1 l) "sync") = true
            ∧ ∀ A (f : unit → M A),
                ((if is_undefined (field (deref w l) "coffee")
                  then setField l "coffee"
                         (VBool (astGenerator.is_coffee file))
                  else mret tt) ≫= f) w = f tt w1).
  { destruct (is_undefined _).
    - eexists. split; [|split; [|intros; apply bind_setField]].
      + apply (writes_only_setField l _ "coffee"). compute_done.
      + rewrite setField_fst, deref_with_heap_eq. unfold field.
        by rewrite lookup_insert_ne.
    - exists w. split; [apply same_but_refl|]. split; [done|]. done. }
  destruct Hstep as (w1 & Hw1 & Hsync1 & ->).
  rewrite bind_getField, Hsync1.
  eapply same_but_trans; [exact Hw1|].
  unfold mbind, M_bind, fs_readFileSync.
  destruct (files w1 !! file) as [data|]; [|apply same_but_refl].
  pose proof (read_same_but (VStr data) l w1) as Hread.
  apply (same_but_mono l parser_keys ("coffee" :: parser_keys)) in Hread;
    [|by intros k ?; apply elem_of_cons; right].
  by destruct (astGenerator.read (VStr data) l w1) as [w2 [[a js]|e]].
Qed.

(** The synchronous branch of [astGenerator.readFile]. *)
Lemma astGenerator_readFile_sync_spec file l w :
  truthy (field (deref w l) "sync") = true →
  snd (astGenerator.readFile file l w) =
  match files w !! file with
  | None => Throw (IOError file)
  | Some data =>
      match source (field (with_coffee file (deref w l)) "coffee")
              (VStr data) with
      | Throw e => Throw e
      | Return js =>
          match acorn_parse js
                  (parser_options (with_coffee file (deref w l))) with
          | Return (ast, comments, tokens) =>
              Return (Some (escodegen_attachComments ast comments tokens, js))
          | Throw e => Throw e
          end
      end
  end.
Proof.
  intros Hsync. unfold astGenerator.readFile. rewrite bind_getField.
  assert (Hstep : ∃ w1, deref w1 l = with_coffee file (deref w l)
            ∧ files w1 = files w
            ∧ ∀ A (f : unit → M A),
                ((if is_undefined (field (deref w l) "coffee")
                  then setField l "coffee"
                         (VBool (astGenerator.is_coffee file))
                  else mret tt) ≫= f) w = f tt w1).
  { unfold with_coffee. destruct (is_undefined _).
    - eexists. split; [|split; [|intros; apply bind_setField]]; [|done].
      by rewrite setField_fst, deref_with_heap_eq.
    - by exists w. }
  destruct Hstep as (w1 & Ho & Hfiles & ->).
  assert (Hsync1 : truthy (field (deref w1 l) "sync") = true).
  { rewrite Ho. unfold with_coffee. destruct (is_undefined _); [|done].
    unfold field in *. by rewrite lookup_insert_ne. }
  rewrite bind_getField, Hsync1.
  unfold mbind, M_bind, fs_readFileSync. rewrite Hfiles.
  destruct (files w !! file) as [data|]; [|done].
  pose proof (astGenerator_read_outcome (VStr data) l w1) as Hr.
  rewrite Ho in Hr.
  destruct (astGenerator.read (VStr data) l w1) as [w2 [[a js]|e]];
    simpl in *;
    (destruct (source _ _) as [js'|e'];
       [destruct (acorn_parse _ _) as [[[a' c] t]|e'']|]);
    congruence.
Qed.

Lemma readFile_snd this filename w :
  snd (readFile this filename w) =
  match files w !! filename with
  | None => Throw (IOError filename)
  | Some data =>
      match source (VBool (astGenerator.is_coffee filename)) (VStr data) with
      | Throw e => Throw e
      | Return js => parsed this js (readFile_options filename)
      end
  end.
Proof.
  unfold readFile. rewrite bind_alloc.
  set (l := fresh (dom (heap w))). set (w0 := with_heap _ w).
  assert (Ho : deref w0 l =
            <["sync" := VBool true]> (<["ecmaVersion" := VNum 6]> ∅))
    by apply deref_with_heap_eq.
  assert (Hsync : truthy (field (deref w0 l) "sync") = true)
    by by rewrite Ho.
  pose proof (astGenerator_readFile_sync_spec filename l w0 Hsync) as Hr.
  rewrite Ho in Hr. change (files w0) with (files w) in Hr.
  assert (Hwc : with_coffee filename
            (<["sync" := VBool true]>
               (<["ecmaVersion" := VNum 6]> (∅ : gmap string val))) =
          <["coffee" := VBool (astGenerator.is_coffee filename)]>
            (<["sync" := VBool true]> (<["ecmaVersion" := VNum 6]> ∅)))
    by done.
  rewrite Hwc in Hr.
  assert (Hc : ∀ o : gmap string val,
            field (<["coffee" := VBool (astGenerator.is_coffee filename)]> o)
              "coffee" = VBool (astGenerator.is_coffee filename))
    by (intros; unfold field; by rewrite lookup_insert_eq).
  rewrite Hc in Hr. fold (readFile_options filename) in Hr.
  unfold parsed, mbind, M_bind.
  destruct (astGenerator.readFile filename l w0) as [w1 [[[a js]|]|e]];
    simpl in *;
    (destruct (files w !! filename) as [data|];
       [destruct (source _ _) as [js'|e'];
          [destruct (acorn_parse _ _) as [[[a' c] t]|e'']|]|]);
    congruence.
Qed.

(** X5: what [Transformer.readFile] returns or throws is decided by the
    file system, the file name and the collaborators, not by the
    instance's configuration.  A missing file throws the I/O error; the
    text is compiled exactly when the name ends in [.coffee]; the parser
    is handed [ecmaVersion: 6] with the parser keys, whatever options the
    instance was constructed with; exceptions of compiler and parser are
    thrown on. *)
Theorem readFile_outcome this filename w :
  snd (readFile this filename w) =
  match files w !! filename with
  | None => Throw (IOError filename)
  | Some data =>
      match (if astGenerator.is_coffee filename
             then coffee_compile (VStr data) else Return (VStr data)) with
      | Throw e => Throw e
      | Return js =>
          match acorn_parse js (readFile_options filename) with
          | Return (ast, comments, tokens) =>
              Return (with_sourceCode js
                        (with_ast
                           (escodegen_attachComments ast comments tokens)
                           this))
          | Throw e => Throw e
          end
      end
  end.
Proof.
  rewrite readFile_snd. unfold source, parsed.
  destruct (files w !! filename) as [data|]; [|done].
  by destruct (astGenerator.is_coffee filename).
Qed.

(** X8: in the synchronous branch of [astGenerator.readFile] an option
    [coffee] that the caller gave decides alone, whatever the file name:
    a false value parses a [.coffee] file as it is, a true value compiles
    any file. *)
Theorem explicit_coffee_option_decides file l w :
  truthy (field (deref w l) "sync") = true →
  is_undefined (field (deref w l) "coffee") = false →
  snd (astGenerator.readFile file l w) =
  match files w !! file with
  | None => Throw (IOError file)
  | Some data =>
      match source (field (deref w l) "coffee") (VStr data) with
      | Throw e => Throw e
      | Return js =>
          match acorn_parse js (parser_options (deref w l)) with
          | Return (ast, comments, tokens) =>
              Return (Some (escodegen_attachComments ast comments tokens, js))
          | Throw e => Throw e
          end
      end
  end.
Proof.
  intros Hsync Hcoffee. rewrite astGenerator_readFile_sync_spec by done.
  unfold with_coffee. by rewrite Hcoffee.
Qed.

(** X6: [Transformer.readFile] works on an object of its own.  Whether it
    returns or throws, every object that existed, the instance's options
    among them, is as it was, and so are the files, the pending
    operations and the log. *)
Theorem readFile_leaves_the_world this filename w :
  heap w ⊆ heap (fst (readFile this filename w))
  ∧ files (fst (readFile this filename w)) = files w
  ∧ readonly (fst (readFile this filename w)) = readonly w
  ∧ queue (fst (readFile this filename w)) = queue w
  ∧ log (fst (readFile this filename w)) = log w.
Proof.
  unfold readFile. rewrite bind_alloc.
  set (l := fresh (dom (heap w))). set (w0 := with_heap _ w).
  assert (Hfresh : heap w !! l = None)
    by apply not_elem_of_dom, is_fresh.
  assert (Hsync : truthy (field (deref w0 l) "sync") = true)
    by (unfold w0; by rewrite deref_with_heap_eq).
  pose proof (astGenerator_readFile_sync_same_but filename l w0 Hsync)
    as (Hf & Hr & Hq & Hl & Hh & _).
  unfold mbind, M_bind.
  assert (Hgoal : heap w ⊆ heap (fst (astGenerator.readFile filename l w0))
            ∧ files (fst (astGenerator.readFile filename l w0)) = files w
            ∧ readonly (fst (astGenerator.readFile filename l w0))
              = readonly w
            ∧ queue (fst (astGenerator.readFile filename l w0)) = queue w
            ∧ log (fst (astGenerator.readFile filename l w0)) = log w).
  { repeat split; try done. apply map_subseteq_spec. intros l' o Hl'.
    assert (l' ≠ l) by congruence.
    rewrite Hh by done. unfold w0. simpl. by rewrite lookup_insert_ne. }
  by destruct (astGenerator.readFile filename l w0) as [w1 [[[a js]|]|e]].
Qed.

End reading.

(** ** The test of the file name *)

Lemma String_append_cons a s t :
  (String a s +:+ t = String a (s +:+ t))%string.
Proof. reflexivity. Qed.

Lemma String_append_nil_r s : (s +:+ "")%string = s.
Proof.
  induction s as [|a s IH]; [done|]. by rewrite String_append_cons, IH.
Qed.

Lemma String_append_assoc s1 s2 s3 :
  ((s1 +:+ s2) +:+ s3 = s1 +:+ (s2 +:+ s3))%string.
Proof.
  induction s1 as [|a s1 IH]; [done|].
  by rewrite !String_append_cons, IH.
Qed.

Lemma String_rev_app_spec s1 s2 :
  String.rev_app s1 s2 = (String.rev s1 +:+ s2)%string.
Proof.
  unfold String.rev. revert s2.
  induction s1 as [|a s1 IH]; intros s2; simpl; [done|].
  rewrite (IH (String a s2)), (IH (String a "")).
  by rewrite String_append_assoc.
Qed.

Lemma String_rev_cons a s :
  String.rev (String a s) = (String.rev s +:+ String a "")%string.
Proof. unfold String.rev at 1. simpl. apply String_rev_app_spec. Qed.

Lemma String_rev_append s1 s2 :
  String.rev (s1 +:+ s2) = (String.rev s2 +:+ String.rev s1)%string.
Proof.
  induction s1 as [|a s1 IH].
  - by rewrite String_append_nil_r.
  - by rewrite String_append_cons, !String_rev_cons, IH,
         String_append_assoc.
Qed.

Lemma String_rev_involutive s : String.rev (String.rev s) = s.
Proof.
  induction s as [|a s IH]; [done|].
  by rewrite String_rev_cons, String_rev_append, IH.
Qed.

Lemma String_prefix_iff p s :
  String.prefix p s = true ↔ ∃ r, s = (p +:+ r)%string.
Proof.
  revert s. induction p as [|a p IH]; intros s; simpl.
  - split; [by exists s | by destruct s].
  - destruct s as [|b s]; [split; [done|by intros [r ?]]|]. simpl.
    destruct (Ascii.ascii_dec a b) as [->|Hab].
    + rewrite IH. split; intros [r Hr]; exists r.
      * by rewrite String_append_cons, Hr.
      * rewrite String_append_cons in Hr. congruence.
    + split; [done|]. intros [r Hr].
      rewrite String_append_cons in Hr. congruence.
Qed.

(** X7: the test [/\.coffee$/] of [astGenerator.readFile] holds of the
    names that end in [.coffee] and of no other. *)
Theorem is_coffee_iff file :
  astGenerator.is_coffee file = true ↔
  ∃ stem, file = (stem +:+ ".coffee")%string.
Proof.
  unfold astGenerator.is_coffee. rewrite String_prefix_iff. split.
  - intros [r Hr]. exists (String.rev r).
    rewrite <- (String_rev_involutive file), Hr, String_rev_append.
    done.
  - intros [stem ->]. exists (String.rev stem).
    by rewrite String_rev_append.
Qed.

(** ** The completion of an asynchronous read *)

(** X9: an asynchronous read whose options hold no callback (or a false
    value) completes without a trace: the operation leaves the queue and
    the world is otherwise as it was, whether the file could be read or
    not.  Nothing is parsed, nothing is called, nothing is thrown. *)
Theorem readFile_async_without_callback `{!Collaborators} file l q w :
  queue w = FsReadFile file l :: q →
  truthy (field (deref w l) "callback") = false →
  turn w = with_queue q w.
Proof.
  intros Hq Hcb. unfold turn. rewrite Hq. simpl.
  unfold astGenerator.readFile_closure. rewrite bind_getField.
  change (deref (with_queue q w) l) with (deref w l). by rewrite Hcb.
Qed.

(** ** The flags and the formatter, construction after construction *)

Lemma flag_flags_of w l k : flag w l k = field (flags_of (deref w l)) k.
Proof.
  unfold flag, flags_of, field.
  destruct (deref w l !! "transformers") as [[]|]; by simpl.
Qed.

Lemma truthy_mergeVal d v :
  v ≠ VUndefined → truthy (mergeVal d v) = truthy v.
Proof. by destruct v. Qed.

Lemma mergeObj_empty d : mergeObj d ∅ = d.
Proof. unfold mergeObj. by rewrite map_imap_empty, (left_id_L ∅ (∪)). Qed.

(** X10: each of the six keys decides its own pass, by truthiness.  For a
    configuration whose [transformers] entry is an object, the
    construction returns, and a pass is in the list exactly when the value
    given under its key is a true value, or, where the key is left out or
    [undefined], when the flag that the shared options held before is. *)
Theorem flags_decide_passes `{!Collaborators} opts flags w t :
  opts !! "transformers" = Some (VObj flags) →
  ∃ w' this, constructor opts w = (w', Return this)
  ∧ (t ∈ transformations this ↔
     truthy match flags !! key t with
            | None | Some VUndefined =>
                flag w Transformer_defaultOptions (key t)
            | Some v => v
            end = true).
Proof.
  intros Hopts. pose proof (constructor_spec opts w) as Hs. simpl in Hs.
  destruct (flag_after_merge opts flags w (key t) Hopts) as [Htr Hflag].
  rewrite Htr in Hs. simpl in Hs.
  eexists _, _. split; [exact Hs|]. simpl.
  rewrite list_elem_of_filter. unfold enabled. rewrite Hflag.
  rewrite field_mergeObj, flag_flags_of.
  assert (Hin : t ∈ priority) by (destruct t; compute_done).
  destruct (flags !! key t) as [v|] eqn:Hv.
  - destruct v; rewrite ?truthy_mergeVal by done; rewrite Is_true_true;
      tauto.
  - rewrite Is_true_true. tauto.
Qed.

(** X11: a configuration with [transformers: null] makes the constructor
    throw a [TypeError], and leaves the shared options such that every
    later construction that gives no [transformers] throws it too. *)
Theorem null_transformers_break_every_construction `{!Collaborators}
    opts opts' w :
  opts !! "transformers" = Some VNull →
  opts' !! "transformers" = None →
  snd (constructor opts w) = Throw TypeError
  ∧ snd (constructor opts' (fst (constructor opts w))) = Throw TypeError.
Proof.
  intros Hopts Hopts'.
  assert (Hnull : field (deref (fst (constructor opts w))
                           Transformer_defaultOptions) "transformers"
                  = VNull).
  { rewrite constructor_spec. simpl.
    by rewrite deref_with_heap_eq, field_mergeObj, Hopts. }
  split.
  - rewrite constructor_spec in Hnull |- *. simpl in *. by rewrite Hnull.
  - rewrite (constructor_spec opts'). simpl.
    by rewrite deref_with_heap_eq, field_mergeObj, Hopts', Hnull.
Qed.

(** X12: [out] reads the formatter option when it is called, from the
    options that all instances share: after a later construction with
    [formatter: false] an instance does not format, and after one with an
    object as [formatter] it formats with that object merged into the one
    the options held. *)
Theorem formatter_follows_later_constructions `{!Collaborators}
    this opts o w :
  options this = Transformer_defaultOptions →
  (opts !! "formatter" = Some (VBool false) →
   snd (out this (fst (constructor opts w))) =
   Return (codeGenerator_generate (ast this) (sourceCode this)))
  ∧ (opts !! "formatter" = Some (VObj o) →
     snd (out this (fst (constructor opts w))) =
     Return (formatter_format
               (codeGenerator_generate (ast this) (sourceCode this))
               (VObj (mergeObj
                        match deref w Transformer_defaultOptions
                              !! "formatter" with
                        | Some (VObj d) => d
                        | _ => ∅
                        end o)))).
Proof.
  intros Hthis. rewrite out_spec, constructor_spec. simpl.
  unfold out_text. rewrite Hthis, deref_with_heap_eq, field_mergeObj.
  split; intros ->; [done|]. by rewrite mergeVal_obj.
Qed.

(** X13: a construction without overrides leaves the world as it is. *)
Theorem constructor_without_overrides_is_neutral `{!Collaborators} w :
  Transformer_defaultOptions ∈ dom (heap w) →
  fst (constructor ∅ w) = w.
Proof.
  intros Hdom. rewrite constructor_spec. simpl. rewrite mergeObj_empty.
  apply World_eq; simpl; try done.
  apply insert_id. unfold deref.
  apply elem_of_dom in Hdom as [o Ho].
  by rewrite (lookup_total_correct _ _ _ Ho).
Qed.

(** ** Running the passes again *)

(** X14: nothing keeps the passes from running again.  A second
    [applyTransformations] applies the whole list once more, to the tree
    the first call left. *)
Theorem applyTransformations_twice `{!Collaborators} this w :
  (this' ← applyTransformations this; applyTransformations this') w =
  (w, Return (with_ast
                (apply_passes (transformations this ++ transformations this)
                   (ast this))
                this)).
Proof.
  unfold mbind, M_bind. rewrite !applyTransformations_spec. simpl.
  unfold apply_passes. by rewrite fold_left_app.
Qed.

(** ** The completion of an asynchronous read, with a callback *)

(** X15: with a function as [callback], the completion of an asynchronous
    read adds exactly one entry to the log: the call of the callback with
    the object [{ast, js}] that [astGenerator.read] returns for the first
    argument of the completion, or the exception that [read] throws,
    uncaught.  The file system, the other pending operations are
    untouched. *)
Theorem readFile_async_completion_log `{!Collaborators} file l f w :
  field (deref w l) "callback" = VFun f →
  let js := first_parameter (readFile_arguments file w) in
  log (runTask (FsReadFile file l) w) =
    log w ++ [match snd (astGenerator.read js l w) with
              | Return (ast, js') => Called f [astGenerator.result ast js']
              | Throw e => Uncaught e
              end]
  ∧ files (runTask (FsReadFile file l) w) = files w
  ∧ queue (runTask (FsReadFile file l) w) = queue w.
Proof.
  intros Hcb js. unfold runTask. fold js.
  unfold astGenerator.readFile_closure. rewrite bind_getField, Hcb.
  cbn [truthy]. unfold mbind, M_bind.
  destruct (read_same_but js l w) as (Hf & _ & Hq & Hl & _).
  destruct (astGenerator.read js l w) as [w1 [[a js']|e]]; simpl in *;
    by rewrite Hf, Hq, Hl.
Qed.

(** ** Writing, then reading *)

(** X16: what a synchronous [writeFile] wrote is what a [readFile] of the
    same path parses next: the text that [out] gave at the time of the
    write. *)
Theorem writeFile_then_readFile `{!Collaborators}
    this reader filename callback w :
  is_function callback = false →
  filename ∉ readonly w →
  snd ((_ ← writeFile this filename callback; readFile reader filename) w) =
  match source (VBool (astGenerator.is_coffee filename))
          (VStr (out_text this w)) with
  | Throw e => Throw e
  | Return js => parsed reader js (readFile_options filename)
  end.
Proof.
  intros Hcb Hro. unfold mbind at 1, M_bind at 1.
  unfold writeFile, mbind, M_bind. rewrite out_spec, Hcb.
  unfold fs_writeFileSync. rewrite decide_False by done.
  rewrite readFile_snd. simpl. by rewrite lookup_insert_eq.
Qed.

(** ** From the constructor to the parser *)

Lemma mergeVal_atomic d v : atomic v = true → mergeVal d v = v.
Proof. by destruct v. Qed.

(** X17: a key of the caller's configuration that holds a primitive value
    or a function, and is none of the four parser keys, is in the options
    the parser of [read] is handed, with that value: this is how
    [ecmaVersion] or [coffee] reach [read], for every instance, since the
    options are shared. *)
Theorem configuration_reaches_the_parser `{!Collaborators} opts k v w :
  k ∉ parser_keys → opts !! k = Some v → atomic v = true →
  field (parser_options
           (deref (fst (constructor opts w)) Transformer_defaultOptions)) k
  = v.
Proof.
  intros Hk Hopts Hv. rewrite field_parser_options by done.
  rewrite constructor_spec. simpl.
  rewrite deref_with_heap_eq, field_mergeObj, Hopts.
  rewrite mergeVal_atomic by done. by destruct v.
Qed.

(** * Runs on the toy collaborators *)

#[local] Existing Instance toy.
#[local] Existing Instance failing_toy.

(** C1 on a configuration that turns arrow functions off: the construction
    returns, with the five other passes in order. *)
Lemma applyTransformations_applies_enabled_passes_witness :
  constructor no_arrows w0 =
    (fst (constructor no_arrows w0),
     Return (mkTransformer (VStr "") (VObj ∅) Transformer_defaultOptions
               no_arrows_passes))
  ∧ no_arrows_passes =
    filter (λ t, enabled (fst (constructor no_arrows w0))
                   Transformer_defaultOptions t) priority.
Proof.
  split; [by vm_compute|].
  apply (applyTransformations_applies_enabled_passes no_arrows w0
           (fst (constructor no_arrows w0))
           (mkTransformer (VStr "") (VObj ∅) Transformer_defaultOptions
              no_arrows_passes)).
  by vm_compute.
Defined.

Example no_arrows_run :
  snd ((this ← constructor no_arrows; this ← read this (VStr "() => 1");
        this ← applyTransformations this; mret (ast this)) w0) =
  Return (VObj (<["body" := VStr "() => 1"]>
    (<["passes" := VArr [VStr "classes"; VStr "template-string"; VStr "let";
                         VStr "default-arguments"; VStr "object-methods"]]>
       ∅))).
Proof. by vm_compute. Qed.

(** C2, as stated, fails.  After a [read] of [var x;] and nothing else,
    [out] returns the text; on a fresh instance, [out] throws what the
    generator throws on [{}].  Neither call fails with [StateError]. *)
Lemma out_before_applyTransformations_does_not_fail :
  let after_read :=
    match (this ← constructor ∅; read this (VStr "var x;")) w0 with
    | (w, Return this) => snd (Fallible.out this w)
    | (_, Throw e) => Throw e
    end in
  let fresh :=
    match constructor ∅ w0 with
    | (w, Return this) => snd (Fallible.out this w)
    | (_, Throw e) => Throw e
    end in
  (after_read = Return "var x;"%string ∧ after_read ≠ Throw StateError)
  ∧ ∃ e, fresh = Throw e ∧ e ≠ StateError.
Proof.
  vm_compute. split; [split; congruence|].
  exists TypeError. split; congruence.
Qed.

(** C2, as the code has it, on a fresh instance of the loaded module:
    the first pass throws on [{}], and that is what the call throws. *)
Lemma out_of_order_calls_are_not_checked_witness :
  constructor ∅ w0 = (w0, Return fresh_instance)
  ∧ Fallible.applyTransformations fresh_instance w0 =
    (w0,
     with_ast (fst (Fallible.run_passes priority (VObj ∅))) fresh_instance,
     thrown (snd (Fallible.run_passes priority (VObj ∅)))).
Proof.
  split; [by vm_compute|].
  apply (out_of_order_calls_are_not_checked ∅ w0 w0 fresh_instance).
  by vm_compute.
Defined.

(** The passes of the toy on what a [read] left, and on [{}]. *)
Lemma failing_toy_passes :
  (match (this ← constructor ∅; read this (VStr "var x;")) w0 with
   | (w, Return this) =>
       let '(_, this', completion) := Fallible.applyTransformations this w in
       completion = Return tt
       ∧ snd (Fallible.out this' w) = Return "var x;"%string
   | (_, Throw _) => False
   end)
  ∧ Fallible.applyTransformations fresh_instance w0 =
    (w0, fresh_instance, Throw TypeError).
Proof. by vm_compute. Qed.

(** C3, as stated, fails: with [blockScopedBindings: false] the pass for
    block-scoped bindings is still in the list. *)
Lemma blockScopedBindings_key_is_ignored :
  transformations <$> returned (constructor no_blockScopedBindings w0)
    = Some priority
  ∧ letTransformation ∈ priority.
Proof. split; [by vm_compute | compute_done]. Qed.

(** C3, as the code has it, on a configuration with [let: false]. *)
Lemma let_key_controls_block_scoped_pass_witness :
  no_let !! "transformers" = Some (VObj (<["let" := VBool false]> ∅))
  ∧ ∃ w' this, constructor no_let w0 = (w', Return this)
      ∧ letTransformation ∉ transformations this.
Proof.
  split; [reflexivity|].
  destruct (let_key_controls_block_scoped_pass no_let
              (<["let" := VBool false]> ∅) w0 eq_refl)
    as (w' & this & Hc & Hfalse & _).
  exists w', this. split; [exact Hc|]. apply Hfalse. reflexivity.
Defined.

(** C5 at the failing input: after a construction that turned classes off
    and formatting on, a construction without any override has no class
    pass and formats. *)
Lemma defaults_after_an_override :
  let r := (_ ← constructor no_classes_formatted; constructor ∅) w0 in
  transformations <$> returned r =
    Some [templateStringTransformation; arrowFunctionTransformation;
          letTransformation; defaultArgsTransformation;
          objectMethodsTransformation]
  ∧ field (deref (fst r) Transformer_defaultOptions) "formatter" = VObj ∅.
Proof. by vm_compute. Qed.

(** C8 at the failing input: the file holds [var x;] and the caller asks
    for an asynchronous read.  The call returns [undefined]; when the read
    completes the callback gets the tree of the text [null], not of the
    file; and when the file is missing the callback gets a tree too, made
    from the error object, and no error. *)
Lemma readFile_async_parses_null :
  snd (astGenerator.readFile "a.js" 1 w_async) = Return None
  ∧ log (turn (fst (astGenerator.readFile "a.js" 1 w_async))) =
    [Called "done" [astGenerator.result
                      (VObj (<["body" := VStr "null"]> ∅)) VNull]]
  ∧ log (turn (fst (astGenerator.readFile "missing.js" 1 w_async))) =
    [Called "done" [astGenerator.result
                      (VObj (<["body" := VStr "Error"]> ∅))
                      (VError (IOError "missing.js"))]].
Proof. by vm_compute. Qed.

(** The synchronous branch of the same function does parse the file. *)
Example readFile_sync_parses_the_file :
  snd ((this ← constructor ∅; this ← readFile this "a.js"; out this) w0)
  = Return "var x;"%string.
Proof. by vm_compute. Qed.

Example is_coffee_examples :
  astGenerator.is_coffee "src/a.coffee" = true
  ∧ astGenerator.is_coffee "a.coffee.js" = false
  ∧ astGenerator.is_coffee "a.js" = false.
Proof. by vm_compute. Qed.

(** A text that does not parse: [read] throws, after it has written the
    parser's keys into the shared options. *)
Example read_syntax_error :
  let r := (this ← constructor ∅; read this (VStr "!")) w0 in
  snd r = Throw (SyntaxError "Unexpected token")
  ∧ field (deref (fst r) Transformer_defaultOptions) "ranges" = VBool true
  ∧ field (deref w0 Transformer_defaultOptions) "ranges" = VUndefined.
Proof. by vm_compute. Qed.

(** Writing: at once without a callback, at the next turn with one; the
    path that cannot be written throws in the first case and is reported
    to the callback in the second. *)
Example writeFile_runs :
  let ready := (this ← constructor ∅; read this (VStr "x = 1")) in
  let sync := (this ← ready; writeFile this "out.js" VUndefined) w0 in
  let async := (this ← ready; writeFile this "out.js" (VFun "done")) w0 in
  let sync_ro := (this ← ready; writeFile this "/ro.js" VUndefined) w0 in
  let async_ro := (this ← ready; writeFile this "/ro.js" (VFun "done")) w0 in
  (files (fst sync) !! "out.js" = Some "x = 1"%string
   ∧ log (fst sync) = [])
  ∧ (files (fst async) !! "out.js" = None
     ∧ files (turn (fst async)) !! "out.js" = Some "x = 1"%string
     ∧ log (turn (fst async)) = [Called "done" [VNull]])
  ∧ snd sync_ro = Throw (IOError "/ro.js")
  ∧ (snd async_ro = Return tt
     ∧ log (turn (fst async_ro)) =
         [Called "done" [VError (IOError "/ro.js")]]).
Proof. by vm_compute. Qed.

(** * Runs of the further properties *)

(** X2 on the key [plugins]: a caller who turned the plugins off gets the
    same parse. *)
Lemma read_overwrites_parser_keys_witness :
  "plugins" ∈ parser_keys
  ∧ astGenerator.read (VStr "x") 0
      (fst (setField 0 "plugins" (VBool false) w0))
    = astGenerator.read (VStr "x") 0 w0.
Proof.
  split; [compute_done|].
  apply (read_overwrites_parser_keys (VStr "x") 0 "plugins" (VBool false) w0).
  compute_done.
Defined.

(** X8 on a [.coffee] file read with [coffee: false]. *)
Lemma explicit_coffee_option_decides_witness :
  truthy (field (deref w_coffee 1) "sync") = true
  ∧ is_undefined (field (deref w_coffee 1) "coffee") = false
  ∧ snd (astGenerator.readFile "b.coffee" 1 w_coffee) =
    Return (Some (VObj (<["body" := VStr "x = 1"]> ∅), VStr "x = 1")).
Proof.
  split; [reflexivity|]. split; [reflexivity|].
  rewrite (explicit_coffee_option_decides "b.coffee" 1 w_coffee eq_refl
             eq_refl).
  by vm_compute.
Defined.

(** X9 on a missing file: the failure leaves no trace. *)
Lemma readFile_async_without_callback_witness :
  queue w_pending = [FsReadFile "missing.js" 1]
  ∧ truthy (field (deref w_pending 1) "callback") = false
  ∧ turn w_pending = with_queue [] w_pending.
Proof.
  split; [reflexivity|]. split; [reflexivity|].
  apply (readFile_async_without_callback "missing.js" 1 [] w_pending);
    reflexivity.
Defined.

(** X10 on the configuration that turns arrow functions off. *)
Lemma flags_decide_passes_witness :
  no_arrows !! "transformers"
    = Some (VObj (<["arrowFunctions" := VBool false]> ∅))
  ∧ ∃ w' this, constructor no_arrows w0 = (w', Return this)
      ∧ arrowFunctionTransformation ∉ transformations this.
Proof.
  split; [reflexivity|].
  destruct (flags_decide_passes no_arrows
              (<["arrowFunctions" := VBool false]> ∅) w0
              arrowFunctionTransformation eq_refl)
    as (w' & this & Hc & Hiff).
  exists w', this. split; [exact Hc|]. intros Hin.
  apply Hiff in Hin. discriminate Hin.
Defined.

(** X11 from the loaded module. *)
Lemma null_transformers_break_every_construction_witness :
  null_transformers !! "transformers" = Some VNull
  ∧ (∅ : gmap string val) !! "transformers" = None
  ∧ snd (constructor null_transformers w0) = Throw TypeError
  ∧ snd (constructor ∅ (fst (constructor null_transformers w0)))
    = Throw TypeError.
Proof.
  split; [reflexivity|]. split; [reflexivity|].
  apply (null_transformers_break_every_construction null_transformers ∅ w0);
    reflexivity.
Defined.

(** X12: an instance made with the defaults formats once another was
    made with a formatter. *)
Lemma formatter_follows_later_constructions_witness :
  options fresh_instance = Transformer_defaultOptions
  ∧ no_classes_formatted !! "formatter" = Some (VObj ∅)
  ∧ snd (out fresh_instance w0) = Return "undefined"%string
  ∧ snd (out fresh_instance (fst (constructor no_classes_formatted w0)))
    = Return "undefined\n"%string.
Proof.
  split; [reflexivity|]. split; [reflexivity|]. split; [by vm_compute|].
  destruct (formatter_follows_later_constructions fresh_instance
              no_classes_formatted ∅ w0 eq_refl) as [_ Hobj].
  rewrite (Hobj eq_refl). by vm_compute.
Defined.

(** X13 from the loaded module. *)
Lemma constructor_without_overrides_is_neutral_witness :
  Transformer_defaultOptions ∈ dom (heap w0)
  ∧ fst (constructor ∅ w0) = w0.
Proof.
  split; [compute_done|].
  apply (constructor_without_overrides_is_neutral w0). compute_done.
Defined.

(** X15 on the file [a.js]. *)
Lemma readFile_async_completion_log_witness :
  field (deref w_async 1) "callback" = VFun "done"
  ∧ log (runTask (FsReadFile "a.js" 1) w_async) =
    [Called "done" [astGenerator.result
                      (VObj (<["body" := VStr "null"]> ∅)) VNull]].
Proof.
  split; [reflexivity|].
  destruct (readFile_async_completion_log "a.js" 1 "done" w_async eq_refl)
    as (Hlog & _).
  rewrite Hlog. by vm_compute.
Defined.

(** X16: the instance that read [x = 1] writes it, a fresh one reads it
    back. *)
Lemma writeFile_then_readFile_witness :
  is_function VUndefined = false
  ∧ ("out.js" ∉ readonly w0)
  ∧ snd ((_ ← writeFile ready_instance "out.js" VUndefined;
          readFile fresh_instance "out.js") w0) =
    Return (mkTransformer (VStr "x = 1")
              (VObj (<["body" := VStr "x = 1"]> ∅))
              Transformer_defaultOptions priority).
Proof.
  split; [reflexivity|]. split; [compute_done|].
  rewrite (writeFile_then_readFile ready_instance fresh_instance "out.js"
             VUndefined w0 eq_refl);
    [by vm_compute | compute_done].
Defined.

(** X17 on [ecmaVersion: 6]. *)
Lemma configuration_reaches_the_parser_witness :
  ("ecmaVersion" ∉ parser_keys)
  ∧ es6 !! "ecmaVersion" = Some (VNum 6)
  ∧ atomic (VNum 6) = true
  ∧ field (parser_options
             (deref (fst (constructor es6 w0)) Transformer_defaultOptions))
      "ecmaVersion" = VNum 6.
Proof.
  split; [compute_done|]. split; [reflexivity|]. split; [reflexivity|].
  apply (configuration_reaches_the_parser es6 "ecmaVersion" (VNum 6) w0);
    [compute_done | reflexivity | reflexivity].
Defined.
